(** * Smart Alarm backend: the lock / challenge lifecycle

    A shallow embedding of [main.py] and [schemas.py]: the request and
    document types, the helpers and the endpoints
    ([create_alarm], [list_alarms], [simulate_lock], [attempt_unlock],
    [morning_insights], ...), followed by the properties of the lock
    lifecycle stated in the specification.

    Conventions.
    - A Python [str] is a list of Unicode code points ([pystr]).
    - A Python [int] is a [Z]; a [datetime] is a number of microseconds
      since 0001-01-01T00:00:00 (UTC) with the range check that the
      standard library makes written out.
    - A call either returns a value or raises: [result].
    - What a call reads from the outside (the clock, [random.randint])
      is an argument of its model. *)

From Stdlib Require Import ZArith NArith List Ascii String Decimal DecimalZ Lia Bool.
From stdpp Require Import base tactics option list gmap strings fin_maps.
Import ListNotations.

Local Open Scope Z_scope.

(** ** Python values *)

Definition pystr := list N.

(** A string literal of the source, as code points. *)
Definition lit (s : string) : pystr :=
  map N_of_ascii (list_ascii_of_string s).

Definition pystr_eqb (s t : pystr) : bool := bool_decide (s = t).

(** [str(n)] for an [int]. *)
Fixpoint uint_chars (d : Decimal.uint) : pystr :=
  match d with
  | Decimal.Nil => []
  | Decimal.D0 d => 48%N :: uint_chars d
  | Decimal.D1 d => 49%N :: uint_chars d
  | Decimal.D2 d => 50%N :: uint_chars d
  | Decimal.D3 d => 51%N :: uint_chars d
  | Decimal.D4 d => 52%N :: uint_chars d
  | Decimal.D5 d => 53%N :: uint_chars d
  | Decimal.D6 d => 54%N :: uint_chars d
  | Decimal.D7 d => 55%N :: uint_chars d
  | Decimal.D8 d => 56%N :: uint_chars d
  | Decimal.D9 d => 57%N :: uint_chars d
  end.

Definition str_int (z : Z) : pystr :=
  match Z.to_int z with
  | Decimal.Pos d => uint_chars d
  | Decimal.Neg d => 45%N :: uint_chars d
  end.

(** [str(v)] for an [Optional[str]]: [str(None)] is ["None"]. *)
Definition str_opt (v : option pystr) : pystr :=
  match v with
  | None => lit "None"
  | Some s => s
  end.

(** [str.isspace] on one code point: the characters [str.strip()] removes. *)
Definition isspace (c : N) : bool :=
  ((9 <=? c) && (c <=? 13) || (28 <=? c) && (c <=? 32)
   || (c =? 133) || (c =? 160) || (c =? 5760)
   || (8192 <=? c) && (c <=? 8202)
   || (c =? 8232) || (c =? 8233) || (c =? 8239) || (c =? 8287)
   || (c =? 12288))%N.

Fixpoint lstrip (s : pystr) : pystr :=
  match s with
  | [] => []
  | c :: s' => if isspace c then lstrip s' else s
  end.

Definition rstrip (s : pystr) : pystr := rev (lstrip (rev s)).

(** [s.strip()] *)
Definition strip (s : pystr) : pystr := rstrip (lstrip s).

(** ** Exceptions and results *)

Inductive exn :=
| HTTPException (status_code : Z) (detail : pystr)
| TypeError
| OverflowError
| ZeroDivisionError
| InvalidId
| ValidationError
| ResponseValidationError.

Inductive result (A : Type) :=
| Ok (a : A)
| Raise (e : exn).
Arguments Ok {A} a.
Arguments Raise {A} e.

Global Instance result_ret : MRet result := fun A a => Ok a.

Global Instance result_bind : MBind result := fun A B k r =>
  match r with
  | Ok a => k a
  | Raise e => Raise e
  end.

Global Instance result_fmap : FMap result := fun A B f r =>
  match r with
  | Ok a => Ok (f a)
  | Raise e => Raise e
  end.

(** ** datetime *)

(** Microseconds in a minute and in a day. *)
Definition US_PER_MINUTE : Z := 60000000.
Definition US_PER_DAY : Z := 86400000000.

(** [datetime.max] is 9999-12-31T23:59:59.999999, day 3652059 of the
    proleptic Gregorian calendar. *)
Definition DATETIME_MAX : Z := 3652059 * US_PER_DAY - 1.

Definition datetime_valid (t : Z) : Prop := 0 <= t <= DATETIME_MAX.

(** [timedelta(minutes=m)]: the number of days must have magnitude at
    most 999999999, else [OverflowError]. *)
Definition timedelta_minutes (m : Z) : result Z :=
  if (-999999999 <=? m / 1440) && (m / 1440 <=? 999999999)
  then Ok (m * US_PER_MINUTE)
  else Raise OverflowError.

(** [t + delta]: [OverflowError] ("date value out of range") when the
    sum leaves the years 1..9999. *)
Definition datetime_add (t delta : Z) : result Z :=
  if (0 <=? t + delta) && (t + delta <=? DATETIME_MAX)
  then Ok (t + delta)
  else Raise OverflowError.

(** Left-pad the decimal numeral of a non-negative [z] with zeros to
    width [w]. *)
Definition zfill (w : nat) (z : Z) : pystr :=
  let s := str_int z in
  repeat 48%N (w - length s) ++ s.

(** Year, month and day of day number [days] (0 is 0001-01-01). *)
Definition civil_of_days (days : Z) : Z * Z * Z :=
  let z := days + 306 in
  let era := z / 146097 in
  let doe := z - era * 146097 in
  let yoe := (doe - doe / 1460 + doe / 36524 - doe / 146096) / 365 in
  let doy := doe - (365 * yoe + yoe / 4 - yoe / 100) in
  let mp := (5 * doy + 2) / 153 in
  let d := doy - (153 * mp + 2) / 5 + 1 in
  let m := if mp <? 10 then mp + 3 else mp - 9 in
  let y := yoe + era * 400 + (if m <=? 2 then 1 else 0) in
  (y, m, d).

(** [t.astimezone(timezone.utc).isoformat()] *)
Definition isoformat (t : Z) : pystr :=
  let '(y, m, d) := civil_of_days (t / US_PER_DAY) in
  let r := t mod US_PER_DAY in
  let us := r mod 1000000 in
  let secs := r / 1000000 in
  zfill 4 y ++ lit "-" ++ zfill 2 m ++ lit "-" ++ zfill 2 d ++ lit "T"
  ++ zfill 2 (secs / 3600) ++ lit ":" ++ zfill 2 (secs / 60 mod 60)
  ++ lit ":" ++ zfill 2 (secs mod 60)
  ++ (if us =? 0 then [] else lit "." ++ zfill 6 us)
  ++ lit "+00:00".

(** ** ObjectId *)

(** An [ObjectId] is a 12-byte value, written as 24 hexadecimal digits. *)
Definition hex_char (d : N) : N :=
  (if d <? 10 then 48 + d else 87 + d)%N.

Definition hex_val (c : N) : option N :=
  (if (48 <=? c) && (c <=? 57) then Some (c - 48)
   else if (97 <=? c) && (c <=? 102) then Some (c - 87)
   else if (65 <=? c) && (c <=? 70) then Some (c - 55)
   else None)%N.

Fixpoint hex_digits (w : nat) (n : N) : pystr :=
  match w with
  | O => []
  | S w' => hex_digits w' (n / 16)%N ++ [hex_char (n mod 16)%N]
  end.

(** [str(oid)] *)
Definition str_oid (n : N) : pystr := hex_digits 24 n.

(** [bytes.fromhex(s)]: the bytes written as pairs of hexadecimal
    digits; ASCII whitespace before a pair is skipped, anything else is
    an error ([None]). *)
Definition ascii_space (c : N) : bool :=
  ((9 <=? c) && (c <=? 13) || (c =? 32))%N.

Fixpoint fromhex (s : pystr) : option (list N) :=
  match s with
  | [] => Some []
  | c :: s' =>
      if ascii_space c then fromhex s'
      else
        match hex_val c, s' with
        | Some hi, c' :: s'' =>
            match hex_val c' with
            | Some lo => cons (hi * 16 + lo)%N <$> fromhex s''
            | None => None
            end
        | _, _ => None
        end
  end.

(** The number a byte string stands for here: its big-endian value when
    it has 12 bytes, as every identifier of the store does; a shorter
    one, which only a string with blanks gives, is numbered from
    [16 ^ 24] on, apart from all of those. *)
Definition bytes_val (b : list N) : N :=
  fold_left (fun acc x => (acc * 256 + x)%N) b 0%N.

Definition oid_of_bytes (b : list N) : N :=
  if (length b =? 12)%nat then bytes_val b
  else (16 ^ 24 + bytes_val (1%N :: b))%N.

(** [ObjectId(s)]: [InvalidId] unless [s] has 24 characters that
    [bytes.fromhex] accepts. *)
Definition ObjectId (s : pystr) : result N :=
  if (length s =? 24)%nat then
    match fromhex s with
    | Some b => Ok (oid_of_bytes b)
    | None => Raise InvalidId
    end
  else Raise InvalidId.

(** [random.randint(lo, hi)]: the generator's next output [r], brought
    into the closed range [lo..hi]. *)
Definition randint (lo hi r : Z) : Z := lo + r mod (hi - lo + 1).

(** The values held by the dictionaries the endpoints handle. A float
    only arises as the quotient of two integers and is kept as that
    quotient: [VQuot a b] is the float nearest to [a / b]. *)
Inductive pyval :=
| VNone
| VBool (b : bool)
| VInt (z : Z)
| VStr (s : pystr)
| VStrList (l : list pystr)
| VDatetime (t : Z)
| VQuot (a b : Z).

(** A [dict] with string keys, as the endpoints build and return them. *)
Abbreviation pydict := (gmap string pyval).

Definition VOptStr (v : option pystr) : pyval :=
  match v with Some s => VStr s | None => VNone end.
Definition VOptInt (v : option Z) : pyval :=
  match v with Some z => VInt z | None => VNone end.
Definition VOptBool (v : option bool) : pyval :=
  match v with Some b => VBool b | None => VNone end.

(** [v or d] on an [Optional[str]] and on an [Optional[int]], and
    [bool(v)]: [None], the empty string and zero are falsy. *)
Definition str_or (v : option pystr) (d : pystr) : pystr :=
  match v with
  | Some (c :: s) => c :: s
  | _ => d
  end.

Definition int_or (v : option Z) (d : Z) : Z :=
  match v with
  | Some 0 | None => d
  | Some n => n
  end.

Definition bool_of_str (v : option pystr) : bool :=
  match v with
  | Some (_ :: _) => true
  | _ => false
  end.

(** [a / b] on two [int]s (true division). *)
Definition truediv (a b : Z) : result pyval :=
  if b =? 0 then Raise ZeroDivisionError else Ok (VQuot a b).

(** [int(v)] on an [Optional[int]]: [int(None)] is a [TypeError]. *)
Definition int_of (v : option Z) : result Z :=
  match v with
  | Some z => Ok z
  | None => Raise TypeError
  end.

(** ** Data model ([schemas.py] and the request types of [main.py]) *)

Inductive TaskType := photo | puzzle | steps.

Definition TaskType_str (t : TaskType) : pystr :=
  match t with
  | photo => lit "photo"
  | puzzle => lit "puzzle"
  | steps => lit "steps"
  end.

Module AlarmCreate.
Record t := mk {
  user_id : pystr;
  alarm_label : option pystr;
  alarm_time : pystr;
  apps : list pystr;
  lock_duration_minutes : Z;
  task_type : TaskType }.
End AlarmCreate.

Module Alarm.
Record t := mk {
  user_id : pystr;
  alarm_label : option pystr;
  alarm_time : pystr;
  apps : list pystr;
  lock_duration_minutes : Z;
  task_type : TaskType }.

(** The constructor [Alarm] on the dumped payload:
    [lock_duration_minutes] has [ge=5, le=1440]. *)
Definition validate (p : AlarmCreate.t) : result t :=
  if (5 <=? AlarmCreate.lock_duration_minutes p)
     && (AlarmCreate.lock_duration_minutes p <=? 1440)
  then Ok (mk (AlarmCreate.user_id p) (AlarmCreate.alarm_label p)
              (AlarmCreate.alarm_time p) (AlarmCreate.apps p)
              (AlarmCreate.lock_duration_minutes p) (AlarmCreate.task_type p))
  else Raise ValidationError.

Definition items (a : t) : pydict :=
  {[ "user_id" := VStr (user_id a);
     "alarm_label" := VOptStr (alarm_label a);
     "alarm_time" := VStr (alarm_time a);
     "apps" := VStrList (apps a);
     "lock_duration_minutes" := VInt (lock_duration_minutes a);
     "task_type" := VStr (TaskType_str (task_type a)) ]}.
End Alarm.

Module LockEvent.
Record t := mk {
  user_id : pystr;
  apps : list pystr;
  task_type : TaskType;
  unlocked : bool;
  expires_at : Z;
  alarm_id : option pystr;
  puzzle_question : option pystr;
  puzzle_answer : option pystr;
  steps_target : option Z;
  photo_required : option bool }.

Definition items (e : t) : pydict :=
  {[ "user_id" := VStr (user_id e);
     "apps" := VStrList (apps e);
     "task_type" := VStr (TaskType_str (task_type e));
     "unlocked" := VBool (unlocked e);
     "expires_at" := VDatetime (expires_at e);
     "alarm_id" := VOptStr (alarm_id e);
     "puzzle_question" := VOptStr (puzzle_question e);
     "puzzle_answer" := VOptStr (puzzle_answer e);
     "steps_target" := VOptInt (steps_target e);
     "photo_required" := VOptBool (photo_required e) ]}.

(** [{"$set": {"unlocked": True}}] *)
Definition set_unlocked (e : t) : t :=
  mk (user_id e) (apps e) (task_type e) true (expires_at e) (alarm_id e)
     (puzzle_question e) (puzzle_answer e) (steps_target e)
     (photo_required e).
End LockEvent.

Module TaskAttempt.
Record t := mk {
  lock_id : pystr;
  user_id : pystr;
  task_type : TaskType;
  success : bool;
  details : pystr }.
End TaskAttempt.

Module AttemptIn.
Record t := mk {
  lock_id : pystr;
  user_id : pystr;
  task_type : TaskType;
  answer : option pystr;
  steps : option Z }.
End AttemptIn.

(** ** The document store *)

(** A stored document: the record it was created from, the [_id] the
    store gave it and the [updated_at] stamp that an update sets. *)
Record stored (A : Type) := Stored {
  _id : N;
  fields : A;
  updated_at : option Z }.
Arguments Stored {A} _ _ _.
Arguments _id {A} _.
Arguments fields {A} _.
Arguments updated_at {A} _.

(** The three collections the endpoints use, each in insertion order,
    and the next identifier the store hands out. *)
Record db := mkdb {
  alarm : list (stored Alarm.t);
  lockevent : list (stored LockEvent.t);
  taskattempt : list (stored TaskAttempt.t);
  next_id : N }.

Definition empty_db : db := mkdb [] [] [] 0.

(** Modelled from the spec: the helpers of the [database] module, which
    is not among the sources ("a generic document store exposing, per
    named collection: insert(record) -> id, find_one(filter) -> record?,
    find_many(filter) -> [record], count(filter) -> int,
    update_one(filter, patch)"). [insert_one] keeps the record as given,
    [None] entries included, under a new [_id]. *)
Definition insert_one {A} (coll : list (stored A)) (id : N) (doc : A)
  : list (stored A) :=
  coll ++ [Stored id doc None].

(** [create_document(name, doc)] returns [str(inserted_id)]; one
    definition per collection. *)
Definition create_document_alarm (d : db) (doc : Alarm.t) : pystr * db :=
  (str_oid (next_id d),
   mkdb (insert_one (alarm d) (next_id d) doc) (lockevent d) (taskattempt d)
        (next_id d + 1)).

Definition create_document_lockevent (d : db) (doc : LockEvent.t) : pystr * db :=
  (str_oid (next_id d),
   mkdb (alarm d) (insert_one (lockevent d) (next_id d) doc) (taskattempt d)
        (next_id d + 1)).

Definition create_document_taskattempt (d : db) (doc : TaskAttempt.t) : pystr * db :=
  (str_oid (next_id d),
   mkdb (alarm d) (lockevent d) (insert_one (taskattempt d) (next_id d) doc)
        (next_id d + 1)).

(** [coll.find_one({"_id": oid})]: the first document with that [_id]. *)
Definition find_one {A} (oid : N) (coll : list (stored A)) : option (stored A) :=
  List.find (fun doc => (_id doc =? oid)%N) coll.

(** [coll.update_one({"_id": oid}, {"$set": ...})]: [f] applied to the
    first document with that [_id], if any. *)
Fixpoint update_one {A} (oid : N) (f : stored A -> stored A)
  (coll : list (stored A)) : list (stored A) :=
  match coll with
  | [] => []
  | doc :: rest =>
      if (_id doc =? oid)%N then f doc :: rest
      else doc :: update_one oid f rest
  end.

(** [{"$set": {"unlocked": True, "updated_at": now}}] on one document. *)
Definition mark_unlocked (now : Z) (doc : stored LockEvent.t)
  : stored LockEvent.t :=
  Stored (_id doc) (LockEvent.set_unlocked (fields doc)) (Some now).

(** A document as the driver returns it: a [dict] whose ["_id"] entry
    holds an [ObjectId], the other entries plain values. *)
Record document := mkdoc {
  doc_id : option N;
  doc_items : pydict }.

Definition with_updated_at (u : option Z) (m : pydict) : pydict :=
  match u with
  | Some t => <["updated_at" := VDatetime t]> m
  | None => m
  end.

Definition alarm_document (s : stored Alarm.t) : document :=
  mkdoc (Some (_id s)) (with_updated_at (updated_at s) (Alarm.items (fields s))).

Definition lockevent_document (s : stored LockEvent.t) : document :=
  mkdoc (Some (_id s)) (with_updated_at (updated_at s) (LockEvent.items (fields s))).

(** ** Helpers of [main.py] *)

Definition iso_key (key : string) (doc : pydict) : pydict :=
  match doc !! key with
  | Some (VDatetime t) => <[key := VStr (isoformat t)]> doc
  | _ => doc
  end.

Definition _object_to_out (doc : document) : pydict :=
  let doc1 :=
    match doc_id doc with
    | Some oid => <["id" := VStr (str_oid oid)]> (doc_items doc)
    | None => doc_items doc
    end in
  foldl (fun acc key => iso_key key acc) doc1
        ["created_at"; "updated_at"; "expires_at"]%string.

(** [response_model=...]: the returned dictionary is cut down to the
    declared fields; a missing field takes its default and is an error
    when it has none. (The type check of each value is left out.) *)
Record model_field := Field {
  field_name : string;
  field_default : option pyval }.

Fixpoint response_model (fs : list model_field) (out : pydict) : result pydict :=
  match fs with
  | [] => Ok ∅
  | f :: fs' =>
      match out !! field_name f, field_default f with
      | Some v, _ | None, Some v =>
          m ← response_model fs' out; Ok (<[field_name f := v]> m)
      | None, None => Raise ResponseValidationError
      end
  end.

Definition AlarmOut : list model_field :=
  [ Field "id" None; Field "user_id" None; Field "alarm_label" None;
    Field "alarm_time" None; Field "apps" None;
    Field "lock_duration_minutes" None; Field "task_type" None ].

Definition LockEventOut : list model_field :=
  [ Field "id" None; Field "user_id" None; Field "apps" None;
    Field "task_type" None; Field "unlocked" None; Field "expires_at" None;
    Field "alarm_id" None; Field "puzzle_question" (Some VNone);
    Field "steps_target" (Some VNone); Field "photo_required" (Some VNone) ].

(** ** Endpoints

    Each endpoint takes the store and returns its outcome together with
    the store it leaves behind: there are no transactions, so what was
    written before an exception stays written. *)

Definition root : pydict :=
  {[ "message" := VStr (lit "Smart Alarm Backend is running") ]}.

Definition get_schema_info : pydict :=
  {[ "collections" :=
       VStrList [lit "alarm"; lit "lockevent"; lit "taskattempt";
                 lit "user"; lit "product"] ]}.

(** The first [find_one] of [create_alarm], with the filter
    [{"_id": {}}], matches nothing and its result is overwritten; it is
    left out. *)
Definition create_alarm (payload : AlarmCreate.t) (d : db) : result pydict * db :=
  if negb (existsb (N.eqb 58) (AlarmCreate.alarm_time payload)) then
    (Raise (HTTPException 400 (lit "alarm_time must be HH:MM")), d)
  else
    match Alarm.validate payload with
    | Raise e => (Raise e, d)
    | Ok a =>
        let '(alarm_id, d') := create_document_alarm d a in
        match ObjectId alarm_id with
        | Raise e => (Raise e, d')
        | Ok oid =>
            match find_one oid (alarm d') with
            | Some saved => (Ok (_object_to_out (alarm_document saved)), d')
            | None => (Raise TypeError, d')
            end
        end
    end.

Definition list_alarms (user_id : option pystr) (d : db) : list pydict :=
  let docs :=
    match user_id with
    | Some (c :: s) =>
        filter (fun doc => Alarm.user_id (fields doc) = c :: s) (alarm d)
    | _ => alarm d
    end in
  map (fun doc => _object_to_out (alarm_document doc)) docs.

(** The task payload of [simulate_lock]:
    [(puzzle_question, puzzle_answer, steps_target, photo_required)];
    [r1] and [r2] are the two outputs of the random generator. *)
Definition challenge (task_type : TaskType) (r1 r2 : Z)
  : option pystr * option pystr * option Z * option bool :=
  match task_type with
  | puzzle =>
      let a := randint 10 99 r1 in
      let b := randint 10 99 r2 in
      (Some (lit "What is " ++ str_int a ++ lit " + " ++ str_int b ++ lit "?"),
       Some (str_int (a + b)), None, None)
  | steps => (None, None, Some 30, None)
  | photo => (None, None, None, Some true)
  end.

Definition lock_doc (user_id : pystr) (alarm_id : option pystr)
  (task_type : TaskType) (expires_at r1 r2 : Z) : LockEvent.t :=
  let '(puzzle_question, puzzle_answer, steps_target, photo_required) :=
    challenge task_type r1 r2 in
  LockEvent.mk user_id [] task_type false expires_at alarm_id
    puzzle_question puzzle_answer steps_target photo_required.

(** [now] is the reading of the clock. *)
Definition simulate_lock (now r1 r2 : Z) (user_id : pystr)
  (alarm_id : option pystr) (task_type : TaskType) (lock_minutes : Z)
  (d : db) : result pydict * db :=
  match delta ← timedelta_minutes lock_minutes; datetime_add now delta with
  | Raise e => (Raise e, d)
  | Ok expires_at =>
      let '(lock_id, d') :=
        create_document_lockevent d
          (lock_doc user_id alarm_id task_type expires_at r1 r2) in
      match ObjectId lock_id with
      | Raise e => (Raise e, d')
      | Ok oid =>
          match find_one oid (lockevent d') with
          | Some saved =>
              let out := _object_to_out (lockevent_document saved) in
              (Ok (delete "puzzle_answer" out), d')
          | None => (Raise TypeError, d')
          end
      end
  end.

(** The verification branch of [attempt_unlock]: [(success, detail)]. *)
Definition verify (payload : AttemptIn.t) (lock : LockEvent.t)
  : result (bool * pystr) :=
  match AttemptIn.task_type payload with
  | puzzle =>
      let provided := strip (str_or (AttemptIn.answer payload) []) in
      let correct := strip (str_opt (LockEvent.puzzle_answer lock)) in
      let success := pystr_eqb provided correct in
      Ok (success, if success then lit "correct" else lit "incorrect")
  | steps =>
      needed ← int_of (LockEvent.steps_target lock);
      let success := int_or (AttemptIn.steps payload) 0 >=? needed in
      Ok (success,
          str_int (int_or (AttemptIn.steps payload) 0) ++ lit "/"
          ++ str_int needed ++ lit " steps")
  | photo =>
      let success := bool_of_str (AttemptIn.answer payload) in
      Ok (success, if success then lit "photo accepted" else lit "photo missing")
  end.

Definition attempt_unlock (now : Z) (payload : AttemptIn.t) (d : db)
  : result pydict * db :=
  match ObjectId (AttemptIn.lock_id payload) with
  | Raise e => (Raise e, d)
  | Ok oid =>
      match find_one oid (lockevent d) with
      | None => (Raise (HTTPException 404 (lit "Lock not found")), d)
      | Some lock =>
          if LockEvent.unlocked (fields lock) then
            (Ok {[ "status" := VStr (lit "already_unlocked") ]}, d)
          else
            match verify payload (fields lock) with
            | Raise e => (Raise e, d)
            | Ok (success, detail) =>
                let attempt_doc :=
                  TaskAttempt.mk (AttemptIn.lock_id payload)
                    (AttemptIn.user_id payload) (AttemptIn.task_type payload)
                    success detail in
                let '(_, d1) := create_document_taskattempt d attempt_doc in
                if success then
                  (Ok {[ "status" := VStr (lit "unlocked") ]},
                   mkdb (alarm d1)
                        (update_one oid (mark_unlocked now) (lockevent d1))
                        (taskattempt d1) (next_id d1))
                else
                  (Ok {[ "status" := VStr (lit "try_again");
                         "detail" := VStr detail ]}, d1)
            end
      end
  end.

(** [count_documents] and [find] with the filters of [morning_insights]. *)
Definition locks_of (user_id : pystr) (d : db) : list (stored LockEvent.t) :=
  filter (fun doc => LockEvent.user_id (fields doc) = user_id) (lockevent d).

Definition unlocked_locks_of (user_id : pystr) (d : db) : list (stored LockEvent.t) :=
  filter (fun doc => LockEvent.user_id (fields doc) = user_id
                     ∧ LockEvent.unlocked (fields doc) = true) (lockevent d).

Definition attempts_of (user_id : pystr) (d : db) : list (stored TaskAttempt.t) :=
  filter (fun doc => TaskAttempt.user_id (fields doc) = user_id) (taskattempt d).

Definition morning_insights (user_id : pystr) (d : db) : result pydict :=
  let total_locks := Z.of_nat (length (locks_of user_id d)) in
  let unlocked := Z.of_nat (length (unlocked_locks_of user_id d)) in
  let attempts_count := Z.of_nat (length (attempts_of user_id d)) in
  attempts_per_lock ←
    (if total_locks =? 0 then Ok (VInt 0) else truediv attempts_count total_locks);
  success_rate ←
    (if total_locks =? 0 then Ok (VInt 0) else truediv unlocked total_locks);
  Ok {[ "total_locks" := VInt total_locks;
        "unlocked" := VInt unlocked;
        "success_rate" := success_rate;
        "avg_attempts_per_lock" := attempts_per_lock ]}.

(** What [test_database] finds outside the program: the handle ([None]
    when there is no database; otherwise the outcome of
    [list_collection_names()], an error message or the names) and
    whether the two environment variables are set. *)
Record test_env := mkenv {
  db_handle : option (pystr + list pystr);
  has_DATABASE_URL : bool;
  has_DATABASE_NAME : bool }.

Definition CHECK : pystr := [9989%N].
Definition CROSS : pystr := [10060%N].
Definition WARNING : pystr := [9888%N; 65039%N].

(** The dictionary [test_database] ends with, each entry with the last
    value assigned to it. *)
Definition test_database (env : test_env) : pydict :=
  let database :=
    match db_handle env with
    | Some (inr _) => CHECK ++ lit " Connected & Working"
    | Some (inl e) => WARNING ++ lit "  Connected but Error: " ++ take 50 e
    | None => WARNING ++ lit "  Available but not initialized"
    end in
  let collections :=
    match db_handle env with
    | Some (inr names) => take 10 names
    | _ => []
    end in
  {[ "backend" := VStr (CHECK ++ lit " Running");
     "database" := VStr database;
     "database_url" :=
       VStr (if has_DATABASE_URL env then CHECK ++ lit " Set"
             else CROSS ++ lit " Not Set");
     "database_name" :=
       VStr (if has_DATABASE_NAME env then CHECK ++ lit " Set"
             else CROSS ++ lit " Not Set");
     "connection_status" :=
       VStr (if db_handle env is Some _ then lit "Connected"
             else lit "Not Connected");
     "collections" := VStrList collections ]}.

(** ** The application: one request, one step of the store *)

Inductive request :=
| GET_root
| GET_schema
| POST_alarms (payload : AlarmCreate.t)
| GET_alarms (user_id : option pystr)
| POST_locks_simulate (now r1 r2 : Z) (user_id : pystr)
    (alarm_id : option pystr) (task_type : option TaskType)
    (lock_minutes : option Z)
| POST_locks_attempt (now : Z) (payload : AttemptIn.t)
| GET_insights_morning (user_id : pystr)
| GET_test (env : test_env).

Inductive response :=
| Object (o : pydict)
| Array (l : list pydict).

Definition handle (req : request) (d : db) : result response * db :=
  match req with
  | GET_root => (Ok (Object root), d)
  | GET_schema => (Ok (Object get_schema_info), d)
  | POST_alarms payload =>
      let '(r, d') := create_alarm payload d in
      (out ← r; Object <$> response_model AlarmOut out, d')
  | GET_alarms user_id =>
      (Array <$> mapM (response_model AlarmOut) (list_alarms user_id d), d)
  | POST_locks_simulate now r1 r2 user_id alarm_id task_type lock_minutes =>
      let '(r, d') :=
        simulate_lock now r1 r2 user_id alarm_id (default puzzle task_type)
          (default 30 lock_minutes) d in
      (out ← r; Object <$> response_model LockEventOut out, d')
  | POST_locks_attempt now payload =>
      let '(r, d') := attempt_unlock now payload d in
      (Object <$> r, d')
  | GET_insights_morning user_id =>
      (Object <$> morning_insights user_id d, d)
  | GET_test env => (Ok (Object (test_database env)), d)
  end.

(** The store after a sequence of requests. *)
Definition run (reqs : list request) (d : db) : db :=
  foldl (fun d req => snd (handle req d)) d reqs.

(** * Vocabulary of the properties *)

Definition OID_BOUND : N := (16 ^ 24)%N.

(** A store in which every identifier handed out so far is below
    [next_id], and [next_id] is still a 12-byte value. *)
Definition db_wf (d : db) : Prop :=
  (next_id d < OID_BOUND)%N
  /\ Forall (fun doc => (_id doc < next_id d)%N) (alarm d)
  /\ Forall (fun doc => (_id doc < next_id d)%N) (lockevent d)
  /\ Forall (fun doc => (_id doc < next_id d)%N) (taskattempt d).

(** A clock reading used in the examples: 2025-11-07T12:00:00 UTC. *)
Definition noon : Z := 63898113600000000.

(** Reading a decimal numeral off the front of a string. *)
Fixpoint read_digits (s : pystr) (acc : Z) : Z * pystr :=
  match s with
  | c :: s' =>
      if ((48 <=? c) && (c <=? 57))%N
      then read_digits s' (acc * 10 + Z.of_N (c - 48))
      else (acc, s)
  | [] => (acc, [])
  end.

Fixpoint strip_prefix (p s : pystr) : option pystr :=
  match p, s with
  | [], _ => Some s
  | x :: p', y :: s' => if (x =? y)%N then strip_prefix p' s' else None
  | _ :: _, [] => None
  end.

(** The two operands a prompt of the form "What is A + B?" shows. *)
Definition operands_of_question (q : pystr) : option (Z * Z) :=
  match strip_prefix (lit "What is ") q with
  | Some s1 =>
      let '(a, s2) := read_digits s1 0 in
      match strip_prefix (lit " + ") s2 with
      | Some s3 =>
          let '(b, s4) := read_digits s3 0 in
          if pystr_eqb s4 (lit "?") then Some (a, b) else None
      | None => None
      end
  | None => None
  end.

Definition question (a b : Z) : pystr :=
  lit "What is " ++ str_int a ++ lit " + " ++ str_int b ++ lit "?".

(** The record an attempt leaves in the log. *)
Definition attempt_record (payload : AttemptIn.t) (success : bool)
  (detail : pystr) (d : db) : stored TaskAttempt.t :=
  Stored (next_id d)
    (TaskAttempt.mk (AttemptIn.lock_id payload) (AttemptIn.user_id payload)
       (AttemptIn.task_type payload) success detail) None.

(** The stores used in the examples: one lock of each kind, created on
    the empty store for user "u1" with identifier 000000000000000000000000. *)
Definition puzzle_db : db :=
  snd (simulate_lock noon 5 7 (lit "u1") None puzzle 30 empty_db).
Definition steps_db : db :=
  snd (simulate_lock noon 5 7 (lit "u1") None steps 30 empty_db).
Definition photo_db : db :=
  snd (simulate_lock noon 5 7 (lit "u1") None photo 30 empty_db).

(** The puzzle lock of [puzzle_db] asks "What is 15 + 17?". *)
Definition puzzle_lock : stored LockEvent.t :=
  Stored 0 (lock_doc (lit "u1") None puzzle (noon + 30 * US_PER_MINUTE) 5 7) None.

Definition spaced_answer : AttemptIn.t :=
  AttemptIn.mk (str_oid 0) (lit "u1") puzzle (Some (lit " 32 ")) None.

Definition short_walk : AttemptIn.t :=
  AttemptIn.mk (str_oid 0) (lit "u1") steps None (Some 25).

Definition steps_lock : stored LockEvent.t :=
  Stored 0 (lock_doc (lit "u1") None steps (noon + 30 * US_PER_MINUTE) 5 7) None.

Definition long_walk : AttemptIn.t :=
  AttemptIn.mk (str_oid 0) (lit "u1") steps None (Some 30).

(** Whether the event [oid] is stored and unlocked. *)
Definition event_unlocked (oid : N) (d : db) : bool :=
  match find_one oid (lockevent d) with
  | Some doc => LockEvent.unlocked (fields doc)
  | None => false
  end.

(** The stores a sequence of requests goes through, the first included. *)
Fixpoint trace (reqs : list request) (d : db) : list db :=
  d :: match reqs with
       | [] => []
       | req :: reqs' => trace reqs' (snd (handle req d))
       end.

(** The number of places where a sequence of flags goes from false to
    true, and from true to false. *)
Fixpoint flips (l : list bool) : nat :=
  match l with
  | a :: (b :: _) as t => (if negb a && b then 1 else 0) + flips t
  | _ => 0
  end.

Fixpoint resets (l : list bool) : nat :=
  match l with
  | a :: (b :: _) as t => (if a && negb b then 1 else 0) + resets t
  | _ => 0
  end.

(** The scenario of the specification: 25 steps, 30 steps, then 5 steps
    against a target of 30. The flag goes up once. *)
Definition scenario : list request :=
  [ POST_locks_attempt noon short_walk;
    POST_locks_attempt noon long_walk;
    POST_locks_attempt noon
      (AttemptIn.mk (str_oid 0) (lit "u1") steps None (Some 5)) ].

(** The dictionaries a response is made of. *)
Definition response_objects (r : response) : list pydict :=
  match r with
  | Object o => [o]
  | Array l => l
  end.

(** The three keys whose datetimes [_object_to_out] turns into text. *)
Definition timestamp_keys : list string :=
  ["created_at"; "updated_at"; "expires_at"]%string.

(** [_object_to_out] on one entry: a datetime becomes its ISO text. *)
Definition iso_value (v : option pyval) : option pyval :=
  match v with
  | Some (VDatetime t) => Some (VStr (isoformat t))
  | _ => v
  end.

(** What [Alarm] accepts, and what [create_alarm] lets through. *)
Definition has_colon (s : pystr) : bool := existsb (N.eqb 58) s.

Definition duration_ok (minutes : Z) : Prop := 5 <= minutes <= 1440.

Definition alarm_of (p : AlarmCreate.t) : Alarm.t :=
  Alarm.mk (AlarmCreate.user_id p) (AlarmCreate.alarm_label p)
    (AlarmCreate.alarm_time p) (AlarmCreate.apps p)
    (AlarmCreate.lock_duration_minutes p) (AlarmCreate.task_type p).

(** The dictionary returned for a stored alarm. *)
Definition alarm_out (oid : N) (a : Alarm.t) : pydict :=
  <["id" := VStr (str_oid oid)]> (Alarm.items a).

(** An alarm request used in the examples. *)
Definition wake_up : AlarmCreate.t :=
  AlarmCreate.mk (lit "u1") (Some (lit "work")) (lit "06:30") [lit "chat"]
    30 steps.

(** The task entries a lock event has, by task type, as [simulate_lock]
    writes them. *)
Definition lock_shape (e : LockEvent.t) : Prop :=
  LockEvent.apps e = []
  /\ match LockEvent.task_type e with
     | puzzle =>
         (exists a b, 10 <= a <= 99 /\ 10 <= b <= 99
            /\ LockEvent.puzzle_question e = Some (question a b)
            /\ LockEvent.puzzle_answer e = Some (str_int (a + b)))
         /\ LockEvent.steps_target e = None
         /\ LockEvent.photo_required e = None
     | steps =>
         LockEvent.puzzle_question e = None
         /\ LockEvent.puzzle_answer e = None
         /\ LockEvent.steps_target e = Some 30
         /\ LockEvent.photo_required e = None
     | photo =>
         LockEvent.puzzle_question e = None
         /\ LockEvent.puzzle_answer e = None
         /\ LockEvent.steps_target e = None
         /\ LockEvent.photo_required e = Some true
     end.

(** An alarm as [create_alarm] lets it into the store. *)
Definition alarm_valid (a : Alarm.t) : Prop :=
  has_colon (Alarm.alarm_time a) = true
  /\ duration_ok (Alarm.lock_duration_minutes a).

(** A lock event later in the life of the store: the same identifier
    and the same fields, except that it may have become unlocked. *)
Definition same_event (doc doc' : stored LockEvent.t) : Prop :=
  _id doc' = _id doc
  /\ LockEvent.set_unlocked (fields doc') = LockEvent.set_unlocked (fields doc)
  /\ (LockEvent.unlocked (fields doc) = true ->
      LockEvent.unlocked (fields doc') = true).


(** * Properties *)

(** Closed equations are settled by evaluation. *)
Ltac vm_refl :=
  match goal with
  | |- @eq ?T ?l ?r => vm_cast_no_check (@eq_refl T r)
  end.

(** ** Identifiers: [ObjectId(str(oid)) == oid] *)

Lemma hex_val_char (d : N) : (d < 16)%N -> hex_val (hex_char d) = Some d.
Proof.
  intros Hd. unfold hex_val, hex_char.
  destruct (N.ltb_spec d 10) as [Hlt | Hge].
  - replace ((48 <=? 48 + d) && (48 + d <=? 57))%N with true.
    + f_equal. lia.
    + symmetry. apply andb_true_iff. split; apply N.leb_le; lia.
  - replace ((48 <=? 87 + d) && (87 + d <=? 57))%N with false.
    + replace ((97 <=? 87 + d) && (87 + d <=? 102))%N with true.
      * f_equal. lia.
      * symmetry. apply andb_true_iff. split; apply N.leb_le; lia.
    + symmetry. apply andb_false_iff. right. apply N.leb_gt. lia.
Qed.

Lemma hex_digits_length (w : nat) : forall n, length (hex_digits w n) = w.
Proof.
  induction w as [| w IH]; intros n; simpl; [reflexivity |].
  rewrite length_app, IH. simpl. lia.
Qed.

Lemma hex_char_not_space (d : N) : (d < 16)%N -> ascii_space (hex_char d) = false.
Proof.
  intros Hd. unfold ascii_space, hex_char.
  destruct (N.ltb_spec d 10);
    repeat match goal with
           | |- context [(?a <=? ?b)%N] => destruct (N.leb_spec a b); try lia
           | |- context [(?a =? ?b)%N] => destruct (N.eqb_spec a b); try lia
           end; reflexivity.
Qed.

Lemma fromhex_pair (hi lo : N) (s : pystr) :
  (hi < 16)%N -> (lo < 16)%N ->
  fromhex (hex_char hi :: hex_char lo :: s)
  = cons (hi * 16 + lo)%N <$> fromhex s.
Proof.
  intros Hhi Hlo. cbn [fromhex].
  rewrite (hex_char_not_space hi Hhi), !hex_val_char by assumption.
  reflexivity.
Qed.

Lemma hex_digits_pair (w : nat) (n : N) :
  hex_digits (S (S w)) n
  = hex_digits w (n / 256)%N
    ++ [hex_char ((n / 16) mod 16)%N; hex_char (n mod 16)%N].
Proof.
  cbn [hex_digits]. rewrite <- app_assoc. cbn [app].
  rewrite N.Div0.div_div. reflexivity.
Qed.

Lemma bytes_val_snoc (b : list N) (x : N) :
  bytes_val (b ++ [x]) = (bytes_val b * 256 + x)%N.
Proof. unfold bytes_val. rewrite fold_left_app. reflexivity. Qed.

(** The digits of [n], two for each of [k] bytes, read back as the [k]
    bytes of [n], followed by what the rest of the string gives. *)
Lemma fromhex_hex_digits (k : nat) : forall (n : N) (rest : pystr),
  exists b,
    length b = k /\ bytes_val b = (n mod 256 ^ N.of_nat k)%N
    /\ fromhex (hex_digits (2 * k) n ++ rest) = app b <$> fromhex rest.
Proof.
  induction k as [| k IH]; intros n rest.
  - exists []. repeat split.
    + symmetry. apply N.mod_1_r.
    + cbn. destruct (fromhex rest); reflexivity.
  - replace (2 * S k)%nat with (S (S (2 * k))) by lia.
    rewrite hex_digits_pair, <- app_assoc. cbn [app].
    destruct (IH (n / 256)%N
                (hex_char ((n / 16) mod 16)%N :: hex_char (n mod 16)%N :: rest))
      as (b & Hlen & Hval & Hparse).
    exists (b ++ [((n / 16) mod 16 * 16 + n mod 16)%N]).
    split; [rewrite length_app, Hlen; cbn; lia |].
    split.
    + rewrite bytes_val_snoc, Hval.
      rewrite Nat2N.inj_succ, N.pow_succ_r', N.Div0.mod_mul_r.
      change 256%N with (16 * 16)%N at 4.
      rewrite (N.Div0.mod_mul_r n 16 16). lia.
    + rewrite Hparse, fromhex_pair by (apply N.mod_upper_bound; lia).
      destruct (fromhex rest); cbn; [| reflexivity].
      rewrite <- app_assoc. reflexivity.
Qed.

Lemma ObjectId_str_oid (n : N) : (n < OID_BOUND)%N -> ObjectId (str_oid n) = Ok n.
Proof.
  intros Hn. unfold ObjectId, str_oid.
  rewrite hex_digits_length. simpl Nat.eqb. cbv iota.
  destruct (fromhex_hex_digits 12 n []) as (b & Hlen & Hval & Hparse).
  rewrite app_nil_r in Hparse. change (2 * 12)%nat with 24%nat in Hparse.
  rewrite Hparse. cbn [fromhex fmap option_fmap option_map].
  rewrite app_nil_r. unfold oid_of_bytes. rewrite Hlen. cbn [Nat.eqb].
  rewrite Hval. f_equal. apply N.mod_small. exact Hn.
Qed.

(** Blanks between the pairs pass [ObjectId]; the value is one that no
    stored event has. *)
Example ObjectId_with_blanks :
  exists oid, ObjectId (lit "aa bb cc dd ee ff 00 11 ") = Ok oid
              /\ (OID_BOUND <= oid)%N
              /\ ObjectId (lit "aa bb cc dd ee ff 00 1 1") = Raise InvalidId.
Proof. eexists. split; [vm_compute; reflexivity |]. split; [discriminate | vm_refl]. Qed.

Lemma ObjectId_raises (s : pystr) (e : exn) : ObjectId s = Raise e -> e = InvalidId.
Proof.
  unfold ObjectId.
  destruct (length s =? 24)%nat; [| congruence].
  destruct (fromhex s); congruence.
Qed.

(** ** The store *)

Lemma find_one_app {A} (oid : N) (l1 l2 : list (stored A)) :
  find_one oid (l1 ++ l2) =
  match find_one oid l1 with
  | Some doc => Some doc
  | None => find_one oid l2
  end.
Proof.
  unfold find_one. induction l1 as [| x l1 IH]; simpl; [reflexivity |].
  destruct (_id x =? oid)%N; [reflexivity | exact IH].
Qed.

Lemma find_one_id {A} (oid : N) (l : list (stored A)) (doc : stored A) :
  find_one oid l = Some doc -> _id doc = oid.
Proof.
  unfold find_one. intros H. apply find_some in H as [_ H].
  apply N.eqb_eq. exact H.
Qed.

Lemma find_one_fresh {A} (oid : N) (l : list (stored A)) :
  Forall (fun doc => (_id doc < oid)%N) l -> find_one oid l = None.
Proof.
  unfold find_one. induction 1 as [| x l Hx _ IH]; simpl; [reflexivity |].
  destruct (N.eqb_spec (_id x) oid); [lia | exact IH].
Qed.

Lemma find_one_update_one {A} (oid oid' : N) (f : stored A -> stored A)
  (l : list (stored A)) :
  (forall doc, _id (f doc) = _id doc) ->
  find_one oid (update_one oid' f l) =
  if (oid' =? oid)%N then f <$> find_one oid l else find_one oid l.
Proof.
  intros Hf. unfold find_one.
  induction l as [| x l IH]; simpl.
  - destruct (oid' =? oid)%N; reflexivity.
  - destruct (N.eqb_spec (_id x) oid') as [Hx | Hx]; simpl.
    + rewrite Hf. subst oid'.
      destruct (N.eqb_spec (_id x) oid); reflexivity.
    + destruct (N.eqb_spec (_id x) oid) as [Hy | Hy].
      * subst oid. destruct (N.eqb_spec oid' (_id x)); [congruence | reflexivity].
      * exact IH.
Qed.

Lemma empty_db_wf : db_wf empty_db.
Proof. unfold db_wf, empty_db, OID_BOUND. simpl. repeat split; (lia || constructor). Qed.

(** ** Lock creation *)

Lemma randint_range (lo hi r : Z) : lo <= hi -> lo <= randint lo hi r <= hi.
Proof.
  intros H. unfold randint.
  pose proof (Z.mod_pos_bound r (hi - lo + 1)). lia.
Qed.

Lemma expires_at_ok (now m : Z) :
  datetime_valid now -> datetime_valid (now + m * US_PER_MINUTE) ->
  (delta ← timedelta_minutes m; datetime_add now delta)
  = Ok (now + m * US_PER_MINUTE).
Proof.
  unfold datetime_valid, timedelta_minutes, datetime_add, DATETIME_MAX,
    US_PER_MINUTE, US_PER_DAY.
  intros Hnow Hexp.
  assert (Hdays : -999999999 <= m / 1440 <= 999999999).
  { split.
    - apply Z.div_le_lower_bound; lia.
    - apply Z.lt_succ_r, Z.div_lt_upper_bound; lia. }
  replace ((-999999999 <=? m / 1440) && (m / 1440 <=? 999999999)) with true
    by (symmetry; apply andb_true_iff; split; apply Z.leb_le; lia).
  cbn.
  replace ((0 <=? now + m * 60000000)
           && (now + m * 60000000 <=? 3652059 * 86400000000 - 1)) with true
    by (symmetry; apply andb_true_iff; split; apply Z.leb_le; lia).
  reflexivity.
Qed.

(** What a successful creation writes and returns. *)
Lemma simulate_lock_ok (now r1 r2 : Z) (user_id : pystr)
  (alarm_id : option pystr) (task_type : TaskType) (lock_minutes : Z) (d : db) :
  db_wf d -> datetime_valid now ->
  datetime_valid (now + lock_minutes * US_PER_MINUTE) ->
  let saved :=
    Stored (next_id d)
      (lock_doc user_id alarm_id task_type
         (now + lock_minutes * US_PER_MINUTE) r1 r2) None in
  simulate_lock now r1 r2 user_id alarm_id task_type lock_minutes d =
  (Ok (delete "puzzle_answer" (_object_to_out (lockevent_document saved))),
   mkdb (alarm d) (lockevent d ++ [saved]) (taskattempt d) (next_id d + 1)).
Proof.
  intros (Hid & _ & Hlocks & _) Hnow Hexp saved.
  unfold simulate_lock. rewrite expires_at_ok by assumption.
  unfold create_document_lockevent, insert_one.
  rewrite ObjectId_str_oid by exact Hid.
  cbn [lockevent]. rewrite find_one_app, find_one_fresh by exact Hlocks.
  unfold find_one. cbn [List.find _id]. rewrite N.eqb_refl. reflexivity.
Qed.

Lemma iso_key_absent (key : string) (doc : pydict) :
  doc !! key = None -> iso_key key doc = doc.
Proof. unfold iso_key. intros ->. reflexivity. Qed.

Lemma iso_key_datetime (key : string) (doc : pydict) (t : Z) :
  doc !! key = Some (VDatetime t) ->
  iso_key key doc = <[key := VStr (isoformat t)]> doc.
Proof. unfold iso_key. intros ->. reflexivity. Qed.

Lemma lockevent_items_lookup (e : LockEvent.t) (v : pyval) :
  let m := <["id" := v]> (LockEvent.items e) in
  m !! "created_at" = None /\ m !! "updated_at" = None
  /\ m !! "expires_at" = Some (VDatetime (LockEvent.expires_at e)).
Proof. destruct e. vm_compute. auto. Qed.

Lemma lockevent_items_question (e : LockEvent.t) :
  LockEvent.items e !! "puzzle_question"
  = Some (VOptStr (LockEvent.puzzle_question e)).
Proof. destruct e. vm_compute. reflexivity. Qed.

(** The dictionary [_object_to_out] makes of a lock event that was never
    updated. *)
Lemma object_to_out_lockevent (s : stored LockEvent.t) :
  updated_at s = None ->
  _object_to_out (lockevent_document s) =
  <["expires_at" := VStr (isoformat (LockEvent.expires_at (fields s)))]>
    (<["id" := VStr (str_oid (_id s))]> (LockEvent.items (fields s))).
Proof.
  intros Hu. unfold _object_to_out, lockevent_document. rewrite Hu.
  cbn [doc_id doc_items with_updated_at foldl].
  destruct (lockevent_items_lookup (fields s) (VStr (str_oid (_id s))))
    as (Hc & Hup & He).
  rewrite (iso_key_absent "created_at") by exact Hc.
  rewrite (iso_key_absent "updated_at") by exact Hup.
  rewrite (iso_key_datetime "expires_at" _ _ He).
  reflexivity.
Qed.

Lemma lock_doc_expires_at (user_id : pystr) (alarm_id : option pystr)
  (task_type : TaskType) (expires_at r1 r2 : Z) :
  LockEvent.expires_at (lock_doc user_id alarm_id task_type expires_at r1 r2)
  = expires_at
  /\ LockEvent.unlocked (lock_doc user_id alarm_id task_type expires_at r1 r2)
     = false.
Proof. destruct task_type; split; reflexivity. Qed.

(** Beyond [datetime.max] nothing is created. *)
Lemma simulate_lock_out_of_range (now r1 r2 : Z) (user_id : pystr)
  (alarm_id : option pystr) (task_type : TaskType) (lock_minutes : Z) (d : db) :
  DATETIME_MAX < now + lock_minutes * US_PER_MINUTE ->
  simulate_lock now r1 r2 user_id alarm_id task_type lock_minutes d
  = (Raise OverflowError, d).
Proof.
  intros Hmax.
  assert (H : (delta ← timedelta_minutes lock_minutes; datetime_add now delta)
              = Raise OverflowError).
  { unfold timedelta_minutes, datetime_add.
    destruct ((-999999999 <=? lock_minutes / 1440)
              && (lock_minutes / 1440 <=? 999999999)); [| reflexivity].
    cbn [mbind result_bind].
    replace (now + lock_minutes * US_PER_MINUTE <=? DATETIME_MAX) with false
      by (symmetry; apply Z.leb_gt; exact Hmax).
    rewrite andb_false_r. reflexivity. }
  unfold simulate_lock. rewrite H. reflexivity.
Qed.

(** C5, as stated, fails: with [lock_minutes = 10000000000] (more than
    nineteen thousand years) the sum [now + timedelta(minutes=lock_minutes)]
    leaves the range of [datetime]; [simulate_lock] raises
    [OverflowError] and creates nothing. *)
Lemma simulate_lock_overflow :
  0 < 10000000000 /\ datetime_valid noon
  /\ simulate_lock noon 0 0 (lit "u1") None puzzle 10000000000 empty_db
     = (Raise OverflowError, empty_db).
Proof. split; [lia |]. split; [unfold datetime_valid; vm_compute; split; discriminate |]. vm_compute. reflexivity. Qed.

(** C5 (amended): for every [lock_minutes > 0] for which
    [now + lock_minutes] minutes is still a [datetime] (at most
    9999-12-31T23:59:59.999999), creating a lock event succeeds; the
    stored event has [expires_at = now + lock_minutes] minutes exactly,
    which is strictly after [now], and the returned view carries that
    instant in ISO format. *)
Theorem simulate_lock_expires_at (now r1 r2 : Z) (user_id : pystr)
  (alarm_id : option pystr) (task_type : TaskType) (lock_minutes : Z) (d : db) :
  db_wf d -> datetime_valid now -> 0 < lock_minutes ->
  now + lock_minutes * US_PER_MINUTE <= DATETIME_MAX ->
  exists out saved,
    simulate_lock now r1 r2 user_id alarm_id task_type lock_minutes d
    = (Ok out,
       mkdb (alarm d) (lockevent d ++ [saved]) (taskattempt d) (next_id d + 1))
    /\ LockEvent.expires_at (fields saved) = now + lock_minutes * 60000000
    /\ now < LockEvent.expires_at (fields saved)
    /\ out !! "expires_at"
       = Some (VStr (isoformat (now + lock_minutes * 60000000))).
Proof.
  intros Hwf Hnow Hpos Hmax.
  assert (Hexp : datetime_valid (now + lock_minutes * US_PER_MINUTE)).
  { unfold datetime_valid, US_PER_MINUTE in *. lia. }
  pose proof (simulate_lock_ok now r1 r2 user_id alarm_id task_type
                lock_minutes d Hwf Hnow Hexp) as Hok.
  cbv zeta in Hok.
  destruct (lock_doc_expires_at user_id alarm_id task_type
              (now + lock_minutes * US_PER_MINUTE) r1 r2) as [He _].
  eexists _, _. split; [exact Hok |].
  change 60000000 with US_PER_MINUTE.
  cbn [fields]. rewrite He.
  split; [reflexivity |]. split; [unfold US_PER_MINUTE; lia |].
  rewrite object_to_out_lockevent by reflexivity.
  cbn [fields]. rewrite He.
  rewrite lookup_delete_ne by discriminate.
  apply lookup_insert_eq.
Qed.

Lemma simulate_lock_expires_at_witness :
  exists out saved,
    simulate_lock noon 0 0 (lit "u1") None steps 30 empty_db
    = (Ok out,
       mkdb (alarm empty_db) (lockevent empty_db ++ [saved])
            (taskattempt empty_db) (next_id empty_db + 1))
    /\ LockEvent.expires_at (fields saved) = noon + 30 * 60000000
    /\ noon < LockEvent.expires_at (fields saved)
    /\ out !! "expires_at" = Some (VStr (isoformat (noon + 30 * 60000000))).
Proof.
  apply simulate_lock_expires_at.
  - exact empty_db_wf.
  - unfold datetime_valid, DATETIME_MAX, US_PER_DAY, noon. lia.
  - lia.
  - unfold DATETIME_MAX, US_PER_DAY, US_PER_MINUTE, noon. lia.
Defined.

(** ** The puzzle challenge *)

Lemma two_digit_cases (P : Z -> Z -> bool) :
  forallb (fun a => forallb (P a) (seqZ 10 90)) (seqZ 10 90) = true ->
  forall a b, 10 <= a <= 99 -> 10 <= b <= 99 -> P a b = true.
Proof.
  intros H a b Ha Hb.
  rewrite forallb_forall in H.
  assert (Hin : forall x, 10 <= x <= 99 -> In x (seqZ 10 90)).
  { intros x Hx. apply list_elem_of_In, elem_of_seqZ. lia. }
  specialize (H a (Hin a Ha)).
  rewrite forallb_forall in H. exact (H b (Hin b Hb)).
Qed.

Lemma question_operands (a b : Z) :
  10 <= a <= 99 -> 10 <= b <= 99 ->
  operands_of_question (question a b) = Some (a, b)
  /\ read_digits (str_int (a + b)) 0 = (a + b, []).
Proof.
  intros Ha Hb.
  pose proof (two_digit_cases
    (fun a b =>
       bool_decide (operands_of_question (question a b) = Some (a, b))
       && bool_decide (read_digits (str_int (a + b)) 0 = (a + b, [])))) as H.
  cbv beta in H.
  assert (Hall : forallb (fun a => forallb (fun b =>
       bool_decide (operands_of_question (question a b) = Some (a, b))
       && bool_decide (read_digits (str_int (a + b)) 0 = (a + b, [])))
       (seqZ 10 90)) (seqZ 10 90) = true) by (vm_compute; reflexivity).
  specialize (H Hall a b Ha Hb).
  apply andb_true_iff in H as [H1 H2].
  split; [exact (bool_decide_eq_true_1 _ H1) | exact (bool_decide_eq_true_1 _ H2)].
Qed.

(** C6, as stated, fails in its last part: two draws with the same sum,
    10 + 20 and 11 + 19, store the same [puzzle_answer] but different
    lock events, because the prompt text, which shows the operands, is
    stored with the event. *)
Lemma operands_persisted_in_prompt :
  randint 10 99 0 + randint 10 99 10 = randint 10 99 1 + randint 10 99 9
  /\ lockevent (snd (simulate_lock noon 0 10 (lit "u1") None puzzle 30 empty_db))
     <> lockevent (snd (simulate_lock noon 1 9 (lit "u1") None puzzle 30 empty_db)).
Proof. split; [reflexivity |]. vm_compute. discriminate. Qed.

(** C6 (amended): for every created puzzle lock the stored secret is the
    decimal numeral of [a + b] for two integers [a], [b] of [10..99];
    the prompt is "What is a + b?" and shows exactly these two operands;
    the stored event holds the operands nowhere but inside that prompt
    text (which is stored), every other field being fixed by the
    request; the returned view shows the prompt and not the secret. *)
Theorem simulate_lock_puzzle (now r1 r2 : Z) (user_id : pystr)
  (alarm_id : option pystr) (lock_minutes : Z) (d : db) :
  db_wf d -> datetime_valid now ->
  datetime_valid (now + lock_minutes * US_PER_MINUTE) ->
  let a := randint 10 99 r1 in
  let b := randint 10 99 r2 in
  exists out saved,
    simulate_lock now r1 r2 user_id alarm_id puzzle lock_minutes d
    = (Ok out,
       mkdb (alarm d) (lockevent d ++ [saved]) (taskattempt d) (next_id d + 1))
    /\ 10 <= a <= 99 /\ 10 <= b <= 99
    /\ fields saved
       = LockEvent.mk user_id [] puzzle false
           (now + lock_minutes * US_PER_MINUTE) alarm_id
           (Some (question a b)) (Some (str_int (a + b))) None None
    /\ read_digits (str_int (a + b)) 0 = (a + b, [])
    /\ operands_of_question (question a b) = Some (a, b)
    /\ out !! "puzzle_question" = Some (VStr (question a b))
    /\ out !! "puzzle_answer" = None.
Proof.
  intros Hwf Hnow Hexp a b.
  pose proof (simulate_lock_ok now r1 r2 user_id alarm_id puzzle
                lock_minutes d Hwf Hnow Hexp) as Hok.
  cbv zeta in Hok.
  assert (Ha : 10 <= a <= 99) by (apply randint_range; lia).
  assert (Hb : 10 <= b <= 99) by (apply randint_range; lia).
  destruct (question_operands a b Ha Hb) as [Hq Hs].
  eexists _, _. split; [exact Hok |].
  split; [exact Ha |]. split; [exact Hb |].
  split; [reflexivity |]. split; [exact Hs |]. split; [exact Hq |].
  rewrite object_to_out_lockevent by reflexivity.
  split; [| apply lookup_delete_eq].
  rewrite lookup_delete_ne by discriminate.
  rewrite lookup_insert_ne by discriminate.
  rewrite lookup_insert_ne by discriminate.
  rewrite lockevent_items_question. reflexivity.
Qed.

Lemma simulate_lock_puzzle_witness :
  exists out saved,
    simulate_lock noon 5 7 (lit "u1") None puzzle 30 empty_db
    = (Ok out,
       mkdb (alarm empty_db) (lockevent empty_db ++ [saved])
            (taskattempt empty_db) (next_id empty_db + 1))
    /\ 10 <= randint 10 99 5 <= 99 /\ 10 <= randint 10 99 7 <= 99
    /\ fields saved
       = LockEvent.mk (lit "u1") [] puzzle false
           (noon + 30 * US_PER_MINUTE) None
           (Some (question (randint 10 99 5) (randint 10 99 7)))
           (Some (str_int (randint 10 99 5 + randint 10 99 7))) None None
    /\ read_digits (str_int (randint 10 99 5 + randint 10 99 7)) 0
       = (randint 10 99 5 + randint 10 99 7, [])
    /\ operands_of_question (question (randint 10 99 5) (randint 10 99 7))
       = Some (randint 10 99 5, randint 10 99 7)
    /\ out !! "puzzle_question"
       = Some (VStr (question (randint 10 99 5) (randint 10 99 7)))
    /\ out !! "puzzle_answer" = None.
Proof.
  apply simulate_lock_puzzle.
  - exact empty_db_wf.
  - unfold datetime_valid, DATETIME_MAX, US_PER_DAY, noon. lia.
  - unfold datetime_valid, DATETIME_MAX, US_PER_DAY, US_PER_MINUTE, noon. lia.
Defined.

(** ** Strings *)

Lemma str_or_nil (v : option pystr) : str_or v [] = default [] v.
Proof. destruct v as [[| c s] |]; reflexivity. Qed.

Lemma int_or_zero (v : option Z) : int_or v 0 = default 0 v.
Proof. destruct v as [[| p | p] |]; reflexivity. Qed.

Lemma lstrip_spaces (l s : pystr) :
  forallb isspace l = true -> lstrip (l ++ s) = lstrip s.
Proof.
  induction l as [| c l IH]; simpl; [reflexivity |].
  intros H. apply andb_true_iff in H as [Hc Hl].
  rewrite Hc. exact (IH Hl).
Qed.

Lemma lstrip_all_spaces (s : pystr) :
  forallb isspace s = true -> lstrip s = [].
Proof.
  intros H. rewrite <- (app_nil_r s). rewrite lstrip_spaces by exact H.
  reflexivity.
Qed.

Lemma lstrip_nil_spaces (s : pystr) :
  lstrip s = [] -> forallb isspace s = true.
Proof.
  induction s as [| c s IH]; simpl; [reflexivity |].
  destruct (isspace c); [exact IH | discriminate].
Qed.

Lemma lstrip_app (s r : pystr) :
  lstrip s <> [] -> lstrip (s ++ r) = lstrip s ++ r.
Proof.
  induction s as [| c s IH]; simpl; [congruence |].
  destruct (isspace c); [exact IH | reflexivity].
Qed.

Lemma rstrip_spaces (s r : pystr) :
  forallb isspace r = true -> rstrip (s ++ r) = rstrip s.
Proof.
  intros H. unfold rstrip. rewrite rev_app_distr.
  rewrite lstrip_spaces; [reflexivity |].
  rewrite forallb_forall in *. intros c Hc. apply H, in_rev, Hc.
Qed.

(** [strip] does not see whitespace around its argument. *)
Lemma strip_spaces (l s r : pystr) :
  forallb isspace l = true -> forallb isspace r = true ->
  strip (l ++ s ++ r) = strip s.
Proof.
  intros Hl Hr. unfold strip. rewrite lstrip_spaces by exact Hl.
  destruct (lstrip s) as [| c t] eqn:Hs.
  - rewrite lstrip_all_spaces; [reflexivity |].
    rewrite forallb_app, Hr, (lstrip_nil_spaces s Hs). reflexivity.
  - rewrite lstrip_app by (rewrite Hs; discriminate).
    rewrite Hs. apply rstrip_spaces, Hr.
Qed.

(** ** Attempts *)

(** An attempt on an event that is found and still locked, when the
    verification branch returns. *)
Lemma attempt_unlock_locked (now : Z) (payload : AttemptIn.t) (d : db)
  (oid : N) (lock : stored LockEvent.t) (success : bool) (detail : pystr) :
  ObjectId (AttemptIn.lock_id payload) = Ok oid ->
  find_one oid (lockevent d) = Some lock ->
  LockEvent.unlocked (fields lock) = false ->
  verify payload (fields lock) = Ok (success, detail) ->
  attempt_unlock now payload d =
  (Ok (if success then {[ "status" := VStr (lit "unlocked") ]}
       else {[ "status" := VStr (lit "try_again"); "detail" := VStr detail ]}),
   mkdb (alarm d)
        (if success then update_one oid (mark_unlocked now) (lockevent d)
         else lockevent d)
        (taskattempt d ++ [attempt_record payload success detail d])
        (next_id d + 1)).
Proof.
  intros Hoid Hfind Hlocked Hverify.
  unfold attempt_unlock. rewrite Hoid, Hfind, Hlocked, Hverify.
  destruct success; reflexivity.
Qed.

(** The same, when the verification branch raises: nothing is written. *)
Lemma attempt_unlock_raises (now : Z) (payload : AttemptIn.t) (d : db)
  (oid : N) (lock : stored LockEvent.t) (e : exn) :
  ObjectId (AttemptIn.lock_id payload) = Ok oid ->
  find_one oid (lockevent d) = Some lock ->
  LockEvent.unlocked (fields lock) = false ->
  verify payload (fields lock) = Raise e ->
  attempt_unlock now payload d = (Raise e, d).
Proof.
  intros Hoid Hfind Hlocked Hverify.
  unfold attempt_unlock. rewrite Hoid, Hfind, Hlocked, Hverify. reflexivity.
Qed.

(** An attempt on an event that is already unlocked. *)
Lemma attempt_unlock_already (now : Z) (payload : AttemptIn.t) (d : db)
  (oid : N) (lock : stored LockEvent.t) :
  ObjectId (AttemptIn.lock_id payload) = Ok oid ->
  find_one oid (lockevent d) = Some lock ->
  LockEvent.unlocked (fields lock) = true ->
  attempt_unlock now payload d
  = (Ok {[ "status" := VStr (lit "already_unlocked") ]}, d).
Proof.
  intros Hoid Hfind Hunl.
  unfold attempt_unlock. rewrite Hoid, Hfind, Hunl. reflexivity.
Qed.

(** The verification branch is chosen by the submitted [task_type]
    alone: the [task_type] stored on the event is never read. *)
Lemma verify_ignores_stored_task_type (payload : AttemptIn.t)
  (lock : LockEvent.t) (stored_type : TaskType) :
  verify payload
    (LockEvent.mk (LockEvent.user_id lock) (LockEvent.apps lock) stored_type
       (LockEvent.unlocked lock) (LockEvent.expires_at lock)
       (LockEvent.alarm_id lock) (LockEvent.puzzle_question lock)
       (LockEvent.puzzle_answer lock) (LockEvent.steps_target lock)
       (LockEvent.photo_required lock))
  = verify payload lock.
Proof. reflexivity. Qed.

(** Only the [steps] branch can raise, and only on an event that stores
    no step target. *)
Lemma verify_returns (payload : AttemptIn.t) (lock : LockEvent.t) :
  AttemptIn.task_type payload <> steps
  \/ is_Some (LockEvent.steps_target lock) ->
  exists success detail, verify payload lock = Ok (success, detail).
Proof.
  unfold verify. intros H.
  destruct (AttemptIn.task_type payload) eqn:Ht.
  - eauto.
  - eauto.
  - destruct H as [H | [t Ht']]; [congruence |]. rewrite Ht'. cbn. eauto.
Qed.

(** An attempt on a found, locked event answers with a status in every
    combination of stored and submitted type but one: [steps] submitted
    against an event without a step target. *)
Lemma attempt_unlock_returns (now : Z) (payload : AttemptIn.t) (d : db)
  (oid : N) (lock : stored LockEvent.t) :
  ObjectId (AttemptIn.lock_id payload) = Ok oid ->
  find_one oid (lockevent d) = Some lock ->
  LockEvent.unlocked (fields lock) = false ->
  AttemptIn.task_type payload <> steps
  \/ is_Some (LockEvent.steps_target (fields lock)) ->
  exists out, fst (attempt_unlock now payload d) = Ok out.
Proof.
  intros Hoid Hfind Hlocked Hcase.
  destruct (verify_returns payload (fields lock) Hcase)
    as (success & detail & Hverify).
  rewrite (attempt_unlock_locked now payload d oid lock success detail)
    by assumption.
  eexists. reflexivity.
Qed.

Lemma attempt_unlock_steps_without_target (now : Z) (payload : AttemptIn.t)
  (d : db) (oid : N) (lock : stored LockEvent.t) :
  ObjectId (AttemptIn.lock_id payload) = Ok oid ->
  find_one oid (lockevent d) = Some lock ->
  LockEvent.unlocked (fields lock) = false ->
  AttemptIn.task_type payload = steps ->
  LockEvent.steps_target (fields lock) = None ->
  attempt_unlock now payload d = (Raise TypeError, d).
Proof.
  intros Hoid Hfind Hlocked Htype Htarget.
  apply (attempt_unlock_raises now payload d oid lock); try assumption.
  unfold verify. rewrite Htype, Htarget. reflexivity.
Qed.

(** C1: the branch is chosen by the submitted [task_type], but a
    mismatch does not always end in a status: a [steps] attempt on the
    puzzle lock that [simulate_lock] created (its [steps_target] is
    [None]) raises [TypeError] from [int(None)] instead of returning
    [try_again]. *)
Theorem steps_attempt_on_puzzle_lock_raises :
  (exists lock,
     find_one 0 (lockevent puzzle_db) = Some lock
     /\ LockEvent.task_type (fields lock) = puzzle
     /\ LockEvent.unlocked (fields lock) = false
     /\ LockEvent.steps_target (fields lock) = None)
  /\ attempt_unlock noon
       (AttemptIn.mk (str_oid 0) (lit "u1") steps None (Some 5)) puzzle_db
     = (Raise TypeError, puzzle_db).
Proof.
  split.
  - eexists. split; [vm_compute; reflexivity |]. repeat split.
  - vm_compute. reflexivity.
Qed.

(** C2: a call that resolves a locked event can append no record at
    all: the [steps] attempt on the photo lock that [simulate_lock]
    created raises before the attempt is recorded. *)
Theorem raising_attempt_is_not_logged :
  (exists lock,
     find_one 0 (lockevent photo_db) = Some lock
     /\ LockEvent.unlocked (fields lock) = false)
  /\ fst (attempt_unlock noon
            (AttemptIn.mk (str_oid 0) (lit "u1") steps None (Some 40)) photo_db)
     = Raise TypeError
  /\ taskattempt
       (snd (attempt_unlock noon
               (AttemptIn.mk (str_oid 0) (lit "u1") steps None (Some 40))
               photo_db))
     = taskattempt photo_db.
Proof.
  split.
  - eexists. split; [vm_compute; reflexivity |]. reflexivity.
  - split; vm_compute; reflexivity.
Qed.

(** What the attempts of C2 look like apart from that: none when the
    event is already unlocked, one otherwise whenever the verification
    branch returns, with the outcome in its [success] field. *)
Lemma attempt_unlock_log (now : Z) (payload : AttemptIn.t) (d : db)
  (oid : N) (lock : stored LockEvent.t) :
  ObjectId (AttemptIn.lock_id payload) = Ok oid ->
  find_one oid (lockevent d) = Some lock ->
  taskattempt (snd (attempt_unlock now payload d)) =
  if LockEvent.unlocked (fields lock) then taskattempt d
  else match verify payload (fields lock) with
       | Ok (success, detail) =>
           taskattempt d ++ [attempt_record payload success detail d]
       | Raise _ => taskattempt d
       end.
Proof.
  intros Hoid Hfind.
  destruct (LockEvent.unlocked (fields lock)) eqn:Hunl.
  - rewrite (attempt_unlock_already now payload d oid lock) by assumption.
    reflexivity.
  - destruct (verify payload (fields lock)) as [[success detail] | e] eqn:Hv.
    + rewrite (attempt_unlock_locked now payload d oid lock success detail)
        by assumption.
      reflexivity.
    + rewrite (attempt_unlock_raises now payload d oid lock e) by assumption.
      reflexivity.
Qed.

(** C7: a puzzle attempt on a locked event succeeds iff the submitted
    answer and the stored secret are equal as strings once both are
    trimmed; whitespace around the answer changes nothing, while "016"
    against the secret "16" fails. *)
Theorem puzzle_attempt_compares_trimmed_strings (now : Z)
  (payload : AttemptIn.t) (d : db) (oid : N) (lock : stored LockEvent.t) :
  ObjectId (AttemptIn.lock_id payload) = Ok oid ->
  find_one oid (lockevent d) = Some lock ->
  LockEvent.unlocked (fields lock) = false ->
  AttemptIn.task_type payload = puzzle ->
  let provided := strip (default [] (AttemptIn.answer payload)) in
  let correct := strip (str_opt (LockEvent.puzzle_answer (fields lock))) in
  (provided = correct ->
   fst (attempt_unlock now payload d)
   = Ok {[ "status" := VStr (lit "unlocked") ]})
  /\ (provided <> correct ->
      fst (attempt_unlock now payload d)
      = Ok {[ "status" := VStr (lit "try_again");
              "detail" := VStr (lit "incorrect") ]})
  /\ (forall l s r,
        forallb isspace l = true -> forallb isspace r = true ->
        AttemptIn.answer payload = Some s ->
        attempt_unlock now
          (AttemptIn.mk (AttemptIn.lock_id payload) (AttemptIn.user_id payload)
             puzzle (Some (l ++ s ++ r)) (AttemptIn.steps payload)) d
        = attempt_unlock now payload d)
  /\ (LockEvent.puzzle_answer (fields lock) = Some (lit "16") ->
      AttemptIn.answer payload = Some (lit "016") ->
      fst (attempt_unlock now payload d)
      = Ok {[ "status" := VStr (lit "try_again");
              "detail" := VStr (lit "incorrect") ]}).
Proof.
  intros Hoid Hfind Hlocked Htype provided correct.
  assert (Hverify : verify payload (fields lock)
                    = Ok (pystr_eqb provided correct,
                          if pystr_eqb provided correct then lit "correct"
                          else lit "incorrect")).
  { unfold verify. rewrite Htype, str_or_nil. reflexivity. }
  assert (Hno : provided <> correct ->
                fst (attempt_unlock now payload d)
                = Ok {[ "status" := VStr (lit "try_again");
                        "detail" := VStr (lit "incorrect") ]}).
  { intros Hne.
    rewrite (attempt_unlock_locked now payload d oid lock _ _
               Hoid Hfind Hlocked Hverify).
    unfold pystr_eqb. rewrite bool_decide_eq_false_2 by exact Hne.
    reflexivity. }
  split; [| split; [exact Hno | split]].
  - intros Heq.
    rewrite (attempt_unlock_locked now payload d oid lock _ _
               Hoid Hfind Hlocked Hverify).
    unfold pystr_eqb. rewrite bool_decide_eq_true_2 by exact Heq.
    reflexivity.
  - intros l s r Hl Hr Hans.
    destruct payload as [lock_id user_id task_type answer n].
    cbn in *. subst task_type answer.
    unfold attempt_unlock. cbn [AttemptIn.lock_id]. rewrite Hoid, Hfind, Hlocked.
    unfold verify. cbn [AttemptIn.task_type AttemptIn.answer].
    rewrite !str_or_nil. cbv [default from_option id].
    rewrite strip_spaces by assumption. reflexivity.
  - intros Hsecret Hans. apply Hno.
    subst provided correct. rewrite Hsecret, Hans.
    vm_compute. discriminate.
Qed.

Lemma puzzle_attempt_compares_trimmed_strings_witness :
  let provided := strip (default [] (AttemptIn.answer spaced_answer)) in
  let correct := strip (str_opt (LockEvent.puzzle_answer (fields puzzle_lock))) in
  (provided = correct ->
   fst (attempt_unlock noon spaced_answer puzzle_db)
   = Ok {[ "status" := VStr (lit "unlocked") ]})
  /\ (provided <> correct ->
      fst (attempt_unlock noon spaced_answer puzzle_db)
      = Ok {[ "status" := VStr (lit "try_again");
              "detail" := VStr (lit "incorrect") ]})
  /\ (forall l s r,
        forallb isspace l = true -> forallb isspace r = true ->
        AttemptIn.answer spaced_answer = Some s ->
        attempt_unlock noon
          (AttemptIn.mk (AttemptIn.lock_id spaced_answer)
             (AttemptIn.user_id spaced_answer)
             puzzle (Some (l ++ s ++ r)) (AttemptIn.steps spaced_answer))
          puzzle_db
        = attempt_unlock noon spaced_answer puzzle_db)
  /\ (LockEvent.puzzle_answer (fields puzzle_lock) = Some (lit "16") ->
      AttemptIn.answer spaced_answer = Some (lit "016") ->
      fst (attempt_unlock noon spaced_answer puzzle_db)
      = Ok {[ "status" := VStr (lit "try_again");
              "detail" := VStr (lit "incorrect") ]}).
Proof.
  apply (puzzle_attempt_compares_trimmed_strings noon spaced_answer puzzle_db 0
           puzzle_lock).
  - vm_compute. reflexivity.
  - vm_compute. reflexivity.
  - reflexivity.
  - reflexivity.
Defined.

(** C8: the claim fails on the locked events that store no step target,
    which are the puzzle and photo locks [simulate_lock] creates: there
    a steps attempt compares nothing. Whatever the submitted count is,
    1000 steps, 0 steps or none, [int(None)] raises [TypeError]; the
    call answers neither [unlocked] nor [try_again] with a detail, and
    the count decides nothing. *)
Theorem steps_attempt_without_target_raises :
  (exists lock,
     find_one 0 (lockevent puzzle_db) = Some lock
     /\ LockEvent.unlocked (fields lock) = false
     /\ LockEvent.steps_target (fields lock) = None)
  /\ (forall n : option Z,
        attempt_unlock noon (AttemptIn.mk (str_oid 0) (lit "u1") steps None n)
          puzzle_db
        = (Raise TypeError, puzzle_db))
  /\ attempt_unlock noon
       (AttemptIn.mk (str_oid 0) (lit "u1") steps None (Some 1000)) photo_db
     = (Raise TypeError, photo_db).
Proof.
  split; [| split].
  - exists puzzle_lock. split; [vm_refl | split; reflexivity].
  - intros n.
    apply (attempt_unlock_steps_without_target noon _ puzzle_db 0 puzzle_lock);
      [vm_refl | vm_refl | reflexivity | reflexivity | reflexivity].
  - vm_refl.
Qed.

(** Where the event does store a step target, the steps branch is as
    C8 says: the attempt succeeds iff the submitted count reaches the
    target; a failure answers [try_again] with the detail
    "<n>/<target> steps"; and a missing count is the count 0. *)
Theorem steps_attempt_compares_with_target (now : Z) (payload : AttemptIn.t)
  (d : db) (oid : N) (lock : stored LockEvent.t) (target : Z) :
  ObjectId (AttemptIn.lock_id payload) = Ok oid ->
  find_one oid (lockevent d) = Some lock ->
  LockEvent.unlocked (fields lock) = false ->
  AttemptIn.task_type payload = steps ->
  LockEvent.steps_target (fields lock) = Some target ->
  let n := default 0 (AttemptIn.steps payload) in
  (target <= n ->
   fst (attempt_unlock now payload d)
   = Ok {[ "status" := VStr (lit "unlocked") ]})
  /\ (n < target ->
      fst (attempt_unlock now payload d)
      = Ok {[ "status" := VStr (lit "try_again");
              "detail" := VStr (str_int n ++ lit "/" ++ str_int target
                                ++ lit " steps") ]})
  /\ attempt_unlock now
       (AttemptIn.mk (AttemptIn.lock_id payload) (AttemptIn.user_id payload)
          steps (AttemptIn.answer payload) None) d
     = attempt_unlock now
         (AttemptIn.mk (AttemptIn.lock_id payload) (AttemptIn.user_id payload)
            steps (AttemptIn.answer payload) (Some 0)) d.
Proof.
  intros Hoid Hfind Hlocked Htype Htarget n.
  assert (Hverify : verify payload (fields lock)
                    = Ok (n >=? target,
                          str_int n ++ lit "/" ++ str_int target
                          ++ lit " steps")).
  { unfold verify. rewrite Htype, Htarget, int_or_zero. reflexivity. }
  rewrite (attempt_unlock_locked now payload d oid lock _ _
             Hoid Hfind Hlocked Hverify).
  cbn [fst].
  split; [| split].
  - intros Hge. replace (n >=? target) with true; [reflexivity |].
    symmetry. apply Z.geb_le. exact Hge.
  - intros Hlt. replace (n >=? target) with false; [reflexivity |].
    symmetry. rewrite Z.geb_leb. apply Z.leb_gt. exact Hlt.
  - reflexivity.
Qed.

Lemma steps_attempt_compares_with_target_witness :
  fst (attempt_unlock noon short_walk steps_db)
  = Ok {[ "status" := VStr (lit "try_again");
          "detail" := VStr (lit "25/30 steps") ]}.
Proof.
  refine (proj1 (proj2 (steps_attempt_compares_with_target noon short_walk
                          steps_db 0 steps_lock 30 _ _ _ _ _)) _).
  - vm_compute. reflexivity.
  - vm_compute. reflexivity.
  - reflexivity.
  - reflexivity.
  - reflexivity.
  - vm_compute. reflexivity.
Defined.

(** ** The state of a lock event *)

Lemma lockevent_items_set_unlocked (e : LockEvent.t) :
  LockEvent.items (LockEvent.set_unlocked e)
  = <["unlocked" := VBool true]> (LockEvent.items e).
Proof. destruct e. vm_refl. Qed.

Lemma find_one_mark_unlocked (now : Z) (oid oid' : N)
  (l : list (stored LockEvent.t)) :
  find_one oid (update_one oid' (mark_unlocked now) l) =
  if (oid' =? oid)%N then mark_unlocked now <$> find_one oid l
  else find_one oid l.
Proof. apply find_one_update_one. reflexivity. Qed.

Lemma update_one_length {A} (oid : N) (f : stored A -> stored A)
  (l : list (stored A)) : length (update_one oid f l) = length l.
Proof.
  induction l as [| x l IH]; simpl; [reflexivity |].
  destruct (_id x =? oid)%N; simpl; congruence.
Qed.

(** C10: a successful attempt answers [unlocked] and rewrites the event
    with [unlocked = True] and [updated_at = now]; its identifier and
    its other nine fields are as before, in the stored record and, key
    by key, in the document; no other event and no alarm changes. *)
Theorem successful_attempt_sets_unlocked_only (now : Z) (payload : AttemptIn.t)
  (d : db) (oid : N) (lock : stored LockEvent.t) (detail : pystr) :
  ObjectId (AttemptIn.lock_id payload) = Ok oid ->
  find_one oid (lockevent d) = Some lock ->
  LockEvent.unlocked (fields lock) = false ->
  verify payload (fields lock) = Ok (true, detail) ->
  exists d' lock',
    attempt_unlock now payload d
    = (Ok {[ "status" := VStr (lit "unlocked") ]}, d')
    /\ find_one oid (lockevent d') = Some lock'
    /\ lock' =
       Stored (_id lock)
         (LockEvent.mk (LockEvent.user_id (fields lock))
            (LockEvent.apps (fields lock))
            (LockEvent.task_type (fields lock)) true
            (LockEvent.expires_at (fields lock))
            (LockEvent.alarm_id (fields lock))
            (LockEvent.puzzle_question (fields lock))
            (LockEvent.puzzle_answer (fields lock))
            (LockEvent.steps_target (fields lock))
            (LockEvent.photo_required (fields lock)))
         (Some now)
    /\ (forall key : string,
          key <> "unlocked"%string -> key <> "updated_at"%string ->
          doc_items (lockevent_document lock') !! key
          = doc_items (lockevent_document lock) !! key)
    /\ doc_id (lockevent_document lock') = doc_id (lockevent_document lock)
    /\ (forall other, other <> oid ->
          find_one other (lockevent d') = find_one other (lockevent d))
    /\ length (lockevent d') = length (lockevent d)
    /\ alarm d' = alarm d.
Proof.
  intros Hoid Hfind Hlocked Hverify.
  rewrite (attempt_unlock_locked now payload d oid lock true detail)
    by assumption.
  eexists _, (mark_unlocked now lock). split; [reflexivity |].
  cbn [lockevent alarm].
  split; [| split; [reflexivity | split; [| split; [reflexivity | split; [| split]]]]].
  - rewrite find_one_mark_unlocked, N.eqb_refl, Hfind. reflexivity.
  - intros key Hk1 Hk2. unfold lockevent_document, mark_unlocked.
    cbn [doc_items fields updated_at with_updated_at].
    rewrite lookup_insert_ne by congruence.
    rewrite lockevent_items_set_unlocked.
    rewrite lookup_insert_ne by congruence.
    destruct (updated_at lock); cbn [with_updated_at]; [| reflexivity].
    rewrite lookup_insert_ne by congruence. reflexivity.
  - intros other Hother. rewrite find_one_mark_unlocked.
    destruct (N.eqb_spec oid other); [congruence | reflexivity].
  - apply update_one_length.
  - reflexivity.
Qed.

Lemma successful_attempt_sets_unlocked_only_witness :
  exists d' lock',
    attempt_unlock noon long_walk steps_db
    = (Ok {[ "status" := VStr (lit "unlocked") ]}, d')
    /\ find_one 0 (lockevent d') = Some lock'
    /\ lock' =
       Stored (_id steps_lock)
         (LockEvent.mk (LockEvent.user_id (fields steps_lock))
            (LockEvent.apps (fields steps_lock))
            (LockEvent.task_type (fields steps_lock)) true
            (LockEvent.expires_at (fields steps_lock))
            (LockEvent.alarm_id (fields steps_lock))
            (LockEvent.puzzle_question (fields steps_lock))
            (LockEvent.puzzle_answer (fields steps_lock))
            (LockEvent.steps_target (fields steps_lock))
            (LockEvent.photo_required (fields steps_lock)))
         (Some noon)
    /\ (forall key : string,
          key <> "unlocked"%string -> key <> "updated_at"%string ->
          doc_items (lockevent_document lock') !! key
          = doc_items (lockevent_document steps_lock) !! key)
    /\ doc_id (lockevent_document lock') = doc_id (lockevent_document steps_lock)
    /\ (forall other, other <> 0%N ->
          find_one other (lockevent d') = find_one other (lockevent steps_db))
    /\ length (lockevent d') = length (lockevent steps_db)
    /\ alarm d' = alarm steps_db.
Proof.
  apply (successful_attempt_sets_unlocked_only noon long_walk steps_db 0
           steps_lock (lit "30/30 steps")).
  - vm_compute. reflexivity.
  - vm_compute. reflexivity.
  - reflexivity.
  - vm_compute. reflexivity.
Defined.

(** ** UNLOCKED is terminal *)

Lemma create_alarm_lockevent (payload : AlarmCreate.t) (d : db) :
  lockevent (snd (create_alarm payload d)) = lockevent d.
Proof.
  unfold create_alarm.
  destruct (negb _); [reflexivity |].
  destruct (Alarm.validate payload); [| reflexivity].
  cbn [create_document_alarm].
  destruct (ObjectId _); [| reflexivity].
  destruct (find_one _ _); reflexivity.
Qed.

Lemma simulate_lock_lockevent (now r1 r2 : Z) (user_id : pystr)
  (alarm_id : option pystr) (task_type : TaskType) (lock_minutes : Z) (d : db) :
  lockevent (snd (simulate_lock now r1 r2 user_id alarm_id task_type
                    lock_minutes d)) = lockevent d
  \/ exists doc,
       lockevent (snd (simulate_lock now r1 r2 user_id alarm_id task_type
                         lock_minutes d)) = lockevent d ++ [doc]
       /\ LockEvent.unlocked (fields doc) = false.
Proof.
  unfold simulate_lock.
  destruct (_ ≫= _) as [expires_at | e]; [| left; reflexivity].
  right. exists (Stored (next_id d)
                   (lock_doc user_id alarm_id task_type expires_at r1 r2) None).
  split; [| apply lock_doc_expires_at].
  cbn [create_document_lockevent].
  destruct (ObjectId _); [| reflexivity].
  destruct (find_one _ _); reflexivity.
Qed.

Lemma attempt_unlock_lockevent (now : Z) (payload : AttemptIn.t) (d : db) :
  lockevent (snd (attempt_unlock now payload d)) = lockevent d
  \/ exists oid,
       lockevent (snd (attempt_unlock now payload d))
       = update_one oid (mark_unlocked now) (lockevent d).
Proof.
  unfold attempt_unlock.
  destruct (ObjectId _) as [oid | e]; [| left; reflexivity].
  destruct (find_one oid (lockevent d)) as [lock |]; [| left; reflexivity].
  destruct (LockEvent.unlocked (fields lock)); [left; reflexivity |].
  destruct (verify payload (fields lock)) as [[[|] detail] | e];
    [right; exists oid; reflexivity | left; reflexivity | left; reflexivity].
Qed.

(** One request changes the lock events in one of three ways: not at
    all, by appending a locked event, or by marking one event unlocked. *)
Lemma handle_lockevent (req : request) (d : db) :
  lockevent (snd (handle req d)) = lockevent d
  \/ (exists doc, lockevent (snd (handle req d)) = lockevent d ++ [doc]
                  /\ LockEvent.unlocked (fields doc) = false)
  \/ (exists oid now, lockevent (snd (handle req d))
                      = update_one oid (mark_unlocked now) (lockevent d)).
Proof.
  destruct req as [| | payload | user_id | now r1 r2 user_id alarm_id tt lm
                  | now payload | user_id | env];
    cbn [handle]; try (left; reflexivity).
  - left. rewrite <- (create_alarm_lockevent payload d).
    destruct (create_alarm payload d). reflexivity.
  - pose proof (simulate_lock_lockevent now r1 r2 user_id alarm_id
                  (default puzzle tt) (default 30 lm) d) as H.
    destruct (simulate_lock _ _ _ _ _ _ _ d) as [r d']. cbn [snd] in *.
    destruct H as [H | H]; [left | right; left]; exact H.
  - pose proof (attempt_unlock_lockevent now payload d) as H.
    destruct (attempt_unlock now payload d) as [r d']. cbn [snd] in *.
    destruct H as [H | [oid H]]; [left; exact H |].
    right. right. exists oid, now. exact H.
Qed.

Lemma handle_keeps_unlocked (req : request) (d : db) (oid : N) :
  event_unlocked oid d = true ->
  event_unlocked oid (snd (handle req d)) = true.
Proof.
  unfold event_unlocked.
  destruct (handle_lockevent req d) as [H | [(doc & H & _) | (oid' & now & H)]];
    rewrite H; clear H.
  - trivial.
  - rewrite find_one_app. destruct (find_one oid (lockevent d)); [trivial | discriminate].
  - rewrite find_one_mark_unlocked.
    destruct (oid' =? oid)%N; [| trivial].
    destruct (find_one oid (lockevent d)); [reflexivity | discriminate].
Qed.

Lemma run_keeps_unlocked (reqs : list request) : forall (d : db) (oid : N),
  event_unlocked oid d = true -> event_unlocked oid (run reqs d) = true.
Proof.
  induction reqs as [| req reqs IH]; intros d oid H; [exact H |].
  apply IH, handle_keeps_unlocked, H.
Qed.

Lemma trace_unlocked (reqs : list request) : forall (d : db) (oid : N),
  event_unlocked oid d = true ->
  flips (map (event_unlocked oid) (trace reqs d)) = 0%nat
  /\ resets (map (event_unlocked oid) (trace reqs d)) = 0%nat.
Proof.
  induction reqs as [| req reqs IH]; intros d oid H; [split; reflexivity |].
  pose proof (handle_keeps_unlocked req d oid H) as H'.
  destruct (IH _ oid H') as [IHf IHr].
  cbn [trace] in *.
  destruct reqs; cbn [trace map flips resets] in *; rewrite H, H' in *;
    cbn in *; lia.
Qed.

Lemma trace_flips (reqs : list request) : forall (d : db) (oid : N),
  (flips (map (event_unlocked oid) (trace reqs d)) <= 1)%nat
  /\ resets (map (event_unlocked oid) (trace reqs d)) = 0%nat.
Proof.
  induction reqs as [| req reqs IH]; intros d oid; [split; cbn; lia |].
  destruct (event_unlocked oid d) eqn:H.
  - destruct (trace_unlocked (req :: reqs) d oid H) as [-> ->]. lia.
  - destruct (IH (snd (handle req d)) oid) as [IHf IHr].
    destruct (event_unlocked oid (snd (handle req d))) eqn:H'.
    + destruct (trace_unlocked reqs _ oid H') as [Hf Hr].
      cbn [trace] in *.
      destruct reqs; cbn [trace map flips resets] in *; rewrite H, H' in *;
        cbn in *; lia.
    + cbn [trace] in *.
      destruct reqs; cbn [trace map flips resets] in *; rewrite H, H' in *;
        cbn in *; lia.
Qed.

(** C3: once an event is unlocked it stays unlocked under every sequence
    of requests, whatever they are; along any sequence the flag goes
    from false to true at most once and never from true to false. *)
Theorem unlocked_is_terminal (reqs : list request) (d : db) (oid : N) :
  (event_unlocked oid d = true -> event_unlocked oid (run reqs d) = true)
  /\ (flips (map (event_unlocked oid) (trace reqs d)) <= 1)%nat
  /\ resets (map (event_unlocked oid) (trace reqs d)) = 0%nat.
Proof.
  split; [apply run_keeps_unlocked | apply trace_flips].
Qed.

Example scenario_flags :
  map (event_unlocked 0) (trace scenario steps_db) = [false; false; true; true]
  /\ length (taskattempt (run scenario steps_db)) = 2%nat.
Proof. split; vm_compute; reflexivity. Qed.

Lemma unlocked_is_terminal_witness :
  event_unlocked 0 (run scenario (run scenario steps_db)) = true.
Proof.
  apply (proj1 (unlocked_is_terminal scenario (run scenario steps_db) 0)).
  vm_compute. reflexivity.
Defined.

(** ** Insights *)

Lemma unlocked_locks_le (user_id : pystr) (d : db) :
  (length (unlocked_locks_of user_id d) <= length (locks_of user_id d))%nat.
Proof.
  unfold unlocked_locks_of, locks_of.
  induction (lockevent d) as [| x l IH]; [reflexivity |].
  rewrite !filter_cons.
  repeat case_decide; cbn [length]; try lia.
  tauto.
Qed.

Lemma morning_insights_returns (user_id : pystr) (d : db) :
  exists success_rate avg_attempts_per_lock,
    morning_insights user_id d
    = Ok {[ "total_locks" := VInt (Z.of_nat (length (locks_of user_id d)));
            "unlocked" := VInt (Z.of_nat (length (unlocked_locks_of user_id d)));
            "success_rate" := success_rate;
            "avg_attempts_per_lock" := avg_attempts_per_lock ]}
    /\ (success_rate, avg_attempts_per_lock)
       = if Z.of_nat (length (locks_of user_id d)) =? 0
         then (VInt 0, VInt 0)
         else (VQuot (Z.of_nat (length (unlocked_locks_of user_id d)))
                     (Z.of_nat (length (locks_of user_id d))),
               VQuot (Z.of_nat (length (attempts_of user_id d)))
                     (Z.of_nat (length (locks_of user_id d)))).
Proof.
  unfold morning_insights, truediv.
  destruct (Z.of_nat (length (locks_of user_id d)) =? 0);
    eexists _, _; split; reflexivity.
Qed.

(** C9: [morning_insights] always returns its four entries;
    [success_rate] is [unlocked / total_locks] and
    [avg_attempts_per_lock] is [attempts_count / total_locks], and both
    are the integer 0 when the user has no lock. No call raises. *)
Theorem morning_insights_rates (user_id : pystr) (d : db) :
  let total_locks := Z.of_nat (length (locks_of user_id d)) in
  let unlocked := Z.of_nat (length (unlocked_locks_of user_id d)) in
  let attempts_count := Z.of_nat (length (attempts_of user_id d)) in
  exists success_rate avg_attempts_per_lock,
    morning_insights user_id d
    = Ok {[ "total_locks" := VInt total_locks;
            "unlocked" := VInt unlocked;
            "success_rate" := success_rate;
            "avg_attempts_per_lock" := avg_attempts_per_lock ]}
    /\ (total_locks = 0 ->
        success_rate = VInt 0 /\ avg_attempts_per_lock = VInt 0
        /\ unlocked = 0)
    /\ (total_locks <> 0 ->
        success_rate = VQuot unlocked total_locks
        /\ avg_attempts_per_lock = VQuot attempts_count total_locks).
Proof.
  intros total_locks unlocked attempts_count.
  pose proof (unlocked_locks_le user_id d) as Hle.
  destruct (morning_insights_returns user_id d) as (sr & avg & Heq & Hrates).
  exists sr, avg. split; [exact Heq |].
  fold total_locks unlocked attempts_count in Hrates.
  destruct (Z.eqb_spec total_locks 0) as [Hz | Hnz];
    injection Hrates as -> ->.
  - split; [intros _; repeat split; subst total_locks unlocked; lia |].
    intros H. contradiction.
  - split; [intros H; contradiction | intros _; split; reflexivity].
Qed.

Lemma morning_insights_rates_witness :
  exists success_rate avg_attempts_per_lock,
    morning_insights (lit "nobody") (run scenario steps_db)
    = Ok {[ "total_locks" := VInt 0;
            "unlocked" := VInt 0;
            "success_rate" := success_rate;
            "avg_attempts_per_lock" := avg_attempts_per_lock ]}
    /\ success_rate = VInt 0 /\ avg_attempts_per_lock = VInt 0.
Proof.
  destruct (morning_insights_rates (lit "nobody") (run scenario steps_db))
    as (sr & avg & Heq & Hzero & _).
  exists sr, avg. split; [exact Heq |].
  destruct Hzero as (H1 & H2 & _); [reflexivity |]. split; assumption.
Defined.

Example morning_insights_after_scenario :
  morning_insights (lit "u1") (run scenario steps_db)
  = Ok {[ "total_locks" := VInt 1; "unlocked" := VInt 1;
          "success_rate" := VQuot 1 1;
          "avg_attempts_per_lock" := VQuot 2 1 ]}.
Proof. vm_refl. Qed.

(** ** The secret stays inside *)

Lemma response_model_lookup (fs : list model_field) (out : pydict) :
  forall (m : pydict) (key : string),
    response_model fs out = Ok m ->
    ~ In key (map field_name fs) ->
    m !! key = None.
Proof.
  induction fs as [| f fs IH]; intros m key Hm Hkey.
  - injection Hm as <-. apply lookup_empty.
  - cbn [map In] in Hkey. cbn [response_model] in Hm.
    assert (Hstep : forall v, (m' ← response_model fs out;
                               Ok (<[field_name f := v]> m')) = Ok m ->
                              m !! key = None).
    { intros v Hv.
      destruct (response_model fs out) as [m' |] eqn:Hfs; [| discriminate].
      injection Hv as <-.
      rewrite lookup_insert_ne by tauto.
      apply (IH m' key eq_refl). tauto. }
    destruct (out !! field_name f) as [v |]; [exact (Hstep v Hm) |].
    destruct (field_default f) as [v |]; [exact (Hstep v Hm) | discriminate].
Qed.

Lemma mapM_result_Forall {A B} (f : A -> result B) (P : B -> Prop) :
  (forall x y, f x = Ok y -> P y) ->
  forall l l', mapM f l = Ok l' -> Forall P l'.
Proof.
  intros Hf. induction l as [| x l IH]; intros l' H; cbn in H.
  - injection H as <-. constructor.
  - destruct (f x) as [y |] eqn:Hy; [| discriminate]. cbn in H.
    destruct (mapM f l) as [k |] eqn:Hk; [| discriminate]. cbn in H.
    injection H as <-. constructor; [exact (Hf x y Hy) | exact (IH k eq_refl)].
Qed.

Lemma attempt_unlock_response (now : Z) (payload : AttemptIn.t) (d : db)
  (out : pydict) :
  fst (attempt_unlock now payload d) = Ok out ->
  out = {[ "status" := VStr (lit "already_unlocked") ]}
  \/ out = {[ "status" := VStr (lit "unlocked") ]}
  \/ exists detail,
       out = {[ "status" := VStr (lit "try_again"); "detail" := VStr detail ]}.
Proof.
  unfold attempt_unlock.
  destruct (ObjectId _) as [oid | e]; [| discriminate].
  destruct (find_one oid (lockevent d)) as [lock |]; [| discriminate].
  destruct (LockEvent.unlocked (fields lock)).
  - cbn. intros [= <-]. left. reflexivity.
  - destruct (verify payload (fields lock)) as [[[|] detail] | e];
      cbn; [| | discriminate].
    + intros [= <-]. right. left. reflexivity.
    + intros [= <-]. right. right. exists detail. reflexivity.
Qed.

Lemma status_lookup (v : pyval) :
  ({[ "status" := v ]} : pydict) !! "puzzle_answer" = None.
Proof. vm_compute. reflexivity. Qed.

Lemma status_detail_lookup (v w : pyval) :
  ({[ "status" := v; "detail" := w ]} : pydict) !! "puzzle_answer" = None.
Proof. vm_compute. reflexivity. Qed.

Lemma insights_lookup (a b c e : pyval) :
  ({[ "total_locks" := a; "unlocked" := b; "success_rate" := c;
      "avg_attempts_per_lock" := e ]} : pydict) !! "puzzle_answer" = None.
Proof. vm_compute. reflexivity. Qed.

Lemma test_database_lookup (a b c e f g : pyval) :
  ({[ "backend" := a; "database" := b; "database_url" := c;
      "database_name" := e; "connection_status" := f;
      "collections" := g ]} : pydict) !! "puzzle_answer" = None.
Proof. vm_compute. reflexivity. Qed.

Lemma response_model_view (fs : list model_field) (r : result pydict)
  (resp : response) :
  (out ← r; Object <$> response_model fs out) = Ok resp ->
  exists out m, r = Ok out /\ response_model fs out = Ok m /\ resp = Object m.
Proof.
  destruct r as [out | e]; [| discriminate].
  intros H. change (Object <$> response_model fs out = Ok resp) in H.
  destruct (response_model fs out) as [m | e] eqn:Hm; [| discriminate].
  injection H as <-. eauto.
Qed.

Lemma puzzle_answer_not_declared :
  ~ In "puzzle_answer"%string (map field_name LockEventOut)
  /\ ~ In "puzzle_answer"%string (map field_name AlarmOut).
Proof. split; cbn; intuition discriminate. Qed.

(** C4: the dictionary [simulate_lock] returns has no [puzzle_answer]
    entry, the response model [LockEventOut] declares none, and no
    response of any endpoint, in any store, contains one. *)
Theorem puzzle_answer_never_returned :
  (forall now r1 r2 user_id alarm_id task_type lock_minutes d out d',
     simulate_lock now r1 r2 user_id alarm_id task_type lock_minutes d
     = (Ok out, d') ->
     out !! "puzzle_answer" = None)
  /\ ~ In "puzzle_answer"%string (map field_name LockEventOut)
  /\ (forall req d resp,
        fst (handle req d) = Ok resp ->
        Forall (fun o : pydict => o !! "puzzle_answer" = None)
               (response_objects resp)).
Proof.
  split; [| split; [apply puzzle_answer_not_declared |]].
  - intros now r1 r2 user_id alarm_id task_type lock_minutes d out d'.
    unfold simulate_lock.
    destruct (_ ≫= _); [| discriminate].
    cbn [create_document_lockevent].
    destruct (ObjectId _); [| discriminate].
    destruct (find_one _ _); [| discriminate].
    intros [= <- _]. apply lookup_delete_eq.
  - intros req d resp.
    destruct req as [| | payload | user_id | now r1 r2 user_id alarm_id tt lm
                    | now payload | user_id | env]; cbn [handle].
    + intros [= <-]. constructor; [| constructor]. vm_compute. reflexivity.
    + intros [= <-]. constructor; [| constructor]. vm_compute. reflexivity.
    + destruct (create_alarm payload d) as [r d']. cbn [fst].
      intros H. apply response_model_view in H as (out & m & _ & Hm & ->).
      constructor; [| constructor].
      apply (response_model_lookup _ _ _ _ Hm), puzzle_answer_not_declared.
    + cbn [fst].
      destruct (mapM _ _) as [l |] eqn:Hl; [| discriminate].
      intros [= <-]. cbn [response_objects].
      refine (mapM_result_Forall _ _ _ _ _ Hl).
      intros x y Hy.
      apply (response_model_lookup _ _ _ _ Hy), puzzle_answer_not_declared.
    + destruct (simulate_lock _ _ _ _ _ _ _ d) as [r d']. cbn [fst].
      intros H. apply response_model_view in H as (out & m & _ & Hm & ->).
      constructor; [| constructor].
      apply (response_model_lookup _ _ _ _ Hm), puzzle_answer_not_declared.
    + pose proof (attempt_unlock_response now payload d) as H.
      destruct (attempt_unlock now payload d) as [[out |] d']; cbn [fst] in *;
        [| discriminate].
      intros [= <-]. constructor; [| constructor].
      destruct (H out eq_refl) as [-> | [-> | [detail ->]]];
        [apply status_lookup | apply status_lookup | apply status_detail_lookup].
    + cbn [fst].
      destruct (morning_insights_returns user_id d) as (sr & avg & -> & _).
      intros [= <-]. constructor; [| constructor]. apply insights_lookup.
    + intros [= <-]. constructor; [| constructor]. apply test_database_lookup.
Qed.

Lemma puzzle_answer_never_returned_witness :
  LockEvent.puzzle_answer (fields puzzle_lock) = Some (lit "32")
  /\ delete "puzzle_answer" (_object_to_out (lockevent_document puzzle_lock))
     !! "puzzle_answer" = None.
Proof.
  split; [vm_compute; reflexivity |].
  apply (proj1 puzzle_answer_never_returned noon 5 7 (lit "u1") None puzzle 30
           empty_db _ puzzle_db).
  vm_refl.
Defined.


(** * Further properties of the endpoints *)

(** ** [_object_to_out] *)

Lemma iso_key_lookup (key k : string) (doc : pydict) :
  iso_key key doc !! k = if decide (key = k) then iso_value (doc !! k) else doc !! k.
Proof.
  unfold iso_key, iso_value.
  destruct (decide (key = k)) as [<- | Hne].
  - destruct (doc !! key) as [[] |] eqn:Hk; try exact Hk.
    apply lookup_insert_eq.
  - destruct (doc !! key) as [[] |]; try reflexivity.
    apply lookup_insert_ne. exact Hne.
Qed.

Lemma iso_value_idem (v : option pyval) : iso_value (iso_value v) = iso_value v.
Proof. destruct v as [[] |]; reflexivity. Qed.

Lemma foldl_iso_key_lookup (keys : list string) : forall (doc : pydict) (k : string),
  foldl (fun acc key => iso_key key acc) doc keys !! k
  = if bool_decide (k ∈ keys) then iso_value (doc !! k) else doc !! k.
Proof.
  induction keys as [| key keys IH]; intros doc k; cbn [foldl].
  - reflexivity.
  - rewrite IH, iso_key_lookup.
    destruct (decide (key = k)) as [<- | Hne].
    + rewrite (bool_decide_eq_true_2 (key ∈ key :: keys)) by left.
      rewrite iso_value_idem. destruct (bool_decide (key ∈ keys)); reflexivity.
    + destruct (bool_decide (k ∈ keys)) eqn:Hin.
      * apply bool_decide_eq_true_1 in Hin.
        rewrite bool_decide_eq_true_2 by (right; exact Hin). reflexivity.
      * apply bool_decide_eq_false_1 in Hin.
        rewrite bool_decide_eq_false_2; [reflexivity |].
        intros H. apply elem_of_cons in H as [H | H]; congruence.
Qed.

(** X1: whatever the document, [_object_to_out] returns a dictionary in
    which the identifier, if there is one, is under ["id"] as its 24
    hexadecimal digits; none of [created_at], [updated_at], [expires_at]
    holds a datetime any more (one that did holds its ISO text); and
    every other entry is the document's. *)
Theorem object_to_out_entries (doc : document) :
  (forall oid, doc_id doc = Some oid ->
     _object_to_out doc !! "id" = Some (VStr (str_oid oid)))
  /\ (doc_id doc = None -> _object_to_out doc !! "id" = doc_items doc !! "id")
  /\ (forall key, key ∈ timestamp_keys ->
        _object_to_out doc !! key = iso_value (doc_items doc !! key)
        /\ forall t, _object_to_out doc !! key <> Some (VDatetime t))
  /\ (forall key, key ∉ timestamp_keys -> key <> "id"%string ->
        _object_to_out doc !! key = doc_items doc !! key).
Proof.
  unfold _object_to_out. fold timestamp_keys.
  split; [| split; [| split]].
  - intros oid ->. rewrite foldl_iso_key_lookup.
    rewrite bool_decide_eq_false_2
      by (unfold timestamp_keys; rewrite !elem_of_cons, elem_of_nil;
          intuition discriminate).
    apply lookup_insert_eq.
  - intros ->. rewrite foldl_iso_key_lookup.
    rewrite bool_decide_eq_false_2
      by (unfold timestamp_keys; rewrite !elem_of_cons, elem_of_nil;
          intuition discriminate).
    reflexivity.
  - intros key Hkey.
    assert (Hid : key <> "id"%string).
    { intros ->. unfold timestamp_keys in Hkey.
      rewrite !elem_of_cons, elem_of_nil in Hkey. intuition discriminate. }
    assert (Heq : foldl (fun acc k => iso_key k acc)
                    match doc_id doc with
                    | Some oid => <["id" := VStr (str_oid oid)]> (doc_items doc)
                    | None => doc_items doc
                    end timestamp_keys !! key
                  = iso_value (doc_items doc !! key)).
    { rewrite foldl_iso_key_lookup, bool_decide_eq_true_2 by exact Hkey.
      destruct (doc_id doc); [| reflexivity].
      rewrite lookup_insert_ne by congruence. reflexivity. }
    split; [exact Heq |].
    intros t. rewrite Heq.
    destruct (doc_items doc !! key) as [[] |]; discriminate.
  - intros key Hkey Hid.
    rewrite foldl_iso_key_lookup, bool_decide_eq_false_2 by exact Hkey.
    destruct (doc_id doc); [| reflexivity].
    rewrite lookup_insert_ne by congruence. reflexivity.
Qed.

Lemma object_to_out_entries_witness :
  _object_to_out (lockevent_document (mark_unlocked noon steps_lock)) !! "updated_at"
  = iso_value (doc_items (lockevent_document (mark_unlocked noon steps_lock))
               !! "updated_at")
  /\ forall t,
       _object_to_out (lockevent_document (mark_unlocked noon steps_lock))
       !! "updated_at" <> Some (VDatetime t).
Proof.
  apply (proj1 (proj2 (proj2 (object_to_out_entries
           (lockevent_document (mark_unlocked noon steps_lock)))))).
  unfold timestamp_keys. rewrite !elem_of_cons. right. left. reflexivity.
Defined.

(** ** Alarms *)

Lemma validate_ok (p : AlarmCreate.t) :
  duration_ok (AlarmCreate.lock_duration_minutes p) ->
  Alarm.validate p = Ok (alarm_of p).
Proof.
  unfold duration_ok, Alarm.validate. intros [Hlo Hhi].
  replace ((5 <=? AlarmCreate.lock_duration_minutes p)
           && (AlarmCreate.lock_duration_minutes p <=? 1440)) with true
    by (symmetry; apply andb_true_iff; split; apply Z.leb_le; assumption).
  reflexivity.
Qed.

Lemma validate_rejects (p : AlarmCreate.t) :
  ~ duration_ok (AlarmCreate.lock_duration_minutes p) ->
  Alarm.validate p = Raise ValidationError.
Proof.
  unfold duration_ok, Alarm.validate. intros Hno.
  destruct (Z.leb_spec 5 (AlarmCreate.lock_duration_minutes p));
    destruct (Z.leb_spec (AlarmCreate.lock_duration_minutes p) 1440);
    cbn; try reflexivity.
  lia.
Qed.

Lemma alarm_items_lookup (a : Alarm.t) (v : pyval) :
  let m := <["id" := v]> (Alarm.items a) in
  m !! "created_at" = None /\ m !! "updated_at" = None
  /\ m !! "expires_at" = None.
Proof. destruct a. vm_compute. auto. Qed.

Lemma object_to_out_alarm (s : stored Alarm.t) :
  updated_at s = None ->
  _object_to_out (alarm_document s) = alarm_out (_id s) (fields s).
Proof.
  intros Hu. unfold _object_to_out, alarm_document, alarm_out. rewrite Hu.
  cbn [doc_id doc_items with_updated_at foldl].
  destruct (alarm_items_lookup (fields s) (VStr (str_oid (_id s))))
    as (Hc & Hup & He).
  rewrite (iso_key_absent "created_at") by exact Hc.
  rewrite (iso_key_absent "updated_at") by exact Hup.
  rewrite (iso_key_absent "expires_at") by exact He.
  reflexivity.
Qed.

(** What an accepted [create_alarm] writes and returns. *)
Lemma create_alarm_ok (p : AlarmCreate.t) (d : db) :
  db_wf d -> has_colon (AlarmCreate.alarm_time p) = true ->
  duration_ok (AlarmCreate.lock_duration_minutes p) ->
  create_alarm p d =
  (Ok (alarm_out (next_id d) (alarm_of p)),
   mkdb (alarm d ++ [Stored (next_id d) (alarm_of p) None]) (lockevent d)
        (taskattempt d) (next_id d + 1)).
Proof.
  intros (Hid & Halarms & _) Hcolon Hdur.
  unfold create_alarm. fold (has_colon (AlarmCreate.alarm_time p)).
  rewrite Hcolon, (validate_ok p Hdur). cbn [negb].
  unfold create_document_alarm, insert_one.
  rewrite ObjectId_str_oid by exact Hid.
  cbn [alarm]. rewrite find_one_app, find_one_fresh by exact Halarms.
  unfold find_one. cbn [List.find _id]. rewrite N.eqb_refl.
  rewrite object_to_out_alarm by reflexivity. reflexivity.
Qed.

(** X2: in a well-formed store [create_alarm] succeeds exactly when
    [alarm_time] contains a colon and [lock_duration_minutes] is within
    5..1440. Without a colon it raises the 400 error, also when the
    duration is out of range; with a colon and a bad duration it raises
    the validation error; either way nothing is stored. Any text with a
    colon passes as a time. *)
Theorem create_alarm_accepts (p : AlarmCreate.t) (d : db) :
  db_wf d ->
  (has_colon (AlarmCreate.alarm_time p) = false ->
   create_alarm p d
   = (Raise (HTTPException 400 (lit "alarm_time must be HH:MM")), d))
  /\ (has_colon (AlarmCreate.alarm_time p) = true ->
      ~ duration_ok (AlarmCreate.lock_duration_minutes p) ->
      create_alarm p d = (Raise ValidationError, d))
  /\ (has_colon (AlarmCreate.alarm_time p) = true ->
      duration_ok (AlarmCreate.lock_duration_minutes p) ->
      exists out stored_alarm,
        create_alarm p d
        = (Ok out,
           mkdb (alarm d ++ [stored_alarm]) (lockevent d) (taskattempt d)
                (next_id d + 1))
        /\ fields stored_alarm = alarm_of p).
Proof.
  intros Hwf. split; [| split].
  - intros Hcolon. unfold create_alarm.
    fold (has_colon (AlarmCreate.alarm_time p)). rewrite Hcolon. reflexivity.
  - intros Hcolon Hdur. unfold create_alarm.
    fold (has_colon (AlarmCreate.alarm_time p)).
    rewrite Hcolon, (validate_rejects p Hdur). reflexivity.
  - intros Hcolon Hdur. eexists _, _.
    split; [apply create_alarm_ok; assumption | reflexivity].
Qed.

Lemma create_alarm_accepts_witness :
  exists out stored_alarm,
    create_alarm
      (AlarmCreate.mk (lit "u1") None (lit ":") [] 5 puzzle) empty_db
    = (Ok out,
       mkdb (alarm empty_db ++ [stored_alarm]) (lockevent empty_db)
            (taskattempt empty_db) (next_id empty_db + 1))
    /\ fields stored_alarm
       = alarm_of (AlarmCreate.mk (lit "u1") None (lit ":") [] 5 puzzle).
Proof.
  apply (proj2 (proj2 (create_alarm_accepts
           (AlarmCreate.mk (lit "u1") None (lit ":") [] 5 puzzle) empty_db
           empty_db_wf))).
  - reflexivity.
  - unfold duration_ok. cbn. lia.
Defined.

Lemma alarm_out_model (s : stored Alarm.t) :
  response_model AlarmOut (_object_to_out (alarm_document s))
  = Ok (alarm_out (_id s) (fields s)).
Proof.
  destruct s as [oid a [t |]].
  - unfold _object_to_out, alarm_document, alarm_out, iso_key.
    cbn [doc_id doc_items with_updated_at foldl _id fields updated_at].
    generalize (isoformat t), (VStr (str_oid oid)). intros iso v.
    destruct a as [u [l |] tm ap m tt]; vm_refl.
  - rewrite object_to_out_alarm by reflexivity.
    unfold alarm_out. cbn [_id fields].
    generalize (VStr (str_oid oid)). intros v.
    destruct a as [u [l |] tm ap m tt]; vm_refl.
Qed.

Lemma mapM_result_map {A B C} (h : A -> B) (f : B -> result C) (g : A -> C)
  (l : list A) :
  (forall x, f (h x) = Ok (g x)) -> mapM f (map h l) = Ok (map g l).
Proof.
  intros Hf. induction l as [| x l IH]; [reflexivity |].
  cbn [mapM map]. rewrite Hf, IH. reflexivity.
Qed.

Lemma alarm_out_passes (oid : N) (a : Alarm.t) :
  response_model AlarmOut (alarm_out oid a) = Ok (alarm_out oid a).
Proof.
  pose proof (alarm_out_model (Stored oid a None)) as H.
  rewrite object_to_out_alarm in H by reflexivity. exact H.
Qed.

(** A listing never fails: every stored alarm passes the response model. *)
Lemma alarms_out_model (l : list (stored Alarm.t)) :
  mapM (response_model AlarmOut)
    (map (fun doc => _object_to_out (alarm_document doc)) l)
  = Ok (map (fun doc => alarm_out (_id doc) (fields doc)) l).
Proof. apply mapM_result_map. exact alarm_out_model. Qed.

(** X3: an accepted alarm comes back as it was sent: the response of
    the endpoint is the payload's six fields and the new identifier, the
    stored alarm is found under that identifier, and a listing made
    afterwards returns the alarms that were there and, last, the very
    same dictionary. *)
Theorem create_alarm_round_trip (p : AlarmCreate.t) (d : db) :
  db_wf d -> has_colon (AlarmCreate.alarm_time p) = true ->
  duration_ok (AlarmCreate.lock_duration_minutes p) ->
  let out :=
    {[ "id" := VStr (str_oid (next_id d));
       "user_id" := VStr (AlarmCreate.user_id p);
       "alarm_label" := VOptStr (AlarmCreate.alarm_label p);
       "alarm_time" := VStr (AlarmCreate.alarm_time p);
       "apps" := VStrList (AlarmCreate.apps p);
       "lock_duration_minutes" := VInt (AlarmCreate.lock_duration_minutes p);
       "task_type" := VStr (TaskType_str (AlarmCreate.task_type p)) ]} in
  let d' := snd (handle (POST_alarms p) d) in
  fst (handle (POST_alarms p) d) = Ok (Object out)
  /\ (exists saved, find_one (next_id d) (alarm d') = Some saved
                    /\ fields saved = alarm_of p)
  /\ fst (handle (GET_alarms None) d')
     = Ok (Array (map (fun doc => alarm_out (_id doc) (fields doc)) (alarm d)
                  ++ [out])).
Proof.
  intros Hwf Hcolon Hdur out d'.
  assert (Hout : alarm_out (next_id d) (alarm_of p) = out) by reflexivity.
  subst d'. cbn [handle].
  rewrite (create_alarm_ok p d Hwf Hcolon Hdur). cbn [fst snd alarm].
  split; [| split].
  - change (Object <$> response_model AlarmOut
                         (alarm_out (next_id d) (alarm_of p))
            = Ok (Object out)).
    rewrite alarm_out_passes. reflexivity.
  - destruct Hwf as (_ & Halarms & _).
    exists (Stored (next_id d) (alarm_of p) None).
    split; [| reflexivity].
    rewrite find_one_app, find_one_fresh by exact Halarms.
    unfold find_one. cbn [List.find _id]. rewrite N.eqb_refl. reflexivity.
  - unfold list_alarms. cbn [alarm fst].
    rewrite alarms_out_model, map_app. reflexivity.
Qed.

Lemma create_alarm_round_trip_witness :
  fst (handle (POST_alarms wake_up) steps_db)
  = Ok (Object
          {[ "id" := VStr (str_oid 1);
             "user_id" := VStr (lit "u1");
             "alarm_label" := VStr (lit "work");
             "alarm_time" := VStr (lit "06:30");
             "apps" := VStrList [lit "chat"];
             "lock_duration_minutes" := VInt 30;
             "task_type" := VStr (lit "steps") ]}).
Proof.
  refine (proj1 (create_alarm_round_trip wake_up steps_db _ _ _)).
  - unfold db_wf, OID_BOUND. vm_compute.
    repeat split; try reflexivity; repeat constructor.
  - reflexivity.
  - unfold duration_ok. cbn. lia.
Defined.




(** ** Attempts: errors and what is never looked at *)

Lemma ObjectId_length (s : pystr) (oid : N) :
  ObjectId s = Ok oid -> length s = 24%nat.
Proof.
  unfold ObjectId. destruct (Nat.eqb_spec (length s) 24); [trivial | discriminate].
Qed.

Lemma status_lookup_status (v : pyval) :
  ({[ "status" := v ]} : pydict) !! "status" = Some v.
Proof. vm_compute. reflexivity. Qed.

Lemma status_detail_lookup_status (v w : pyval) :
  ({[ "status" := v; "detail" := w ]} : pydict) !! "status" = Some v.
Proof. vm_compute. reflexivity. Qed.

(** X5: [attempt_unlock] writes all or nothing. A call that raises
    leaves the store exactly as it was, and so does one that answers
    [already_unlocked]; the only exceptions are the identifier error,
    the 404 and the [TypeError] of the steps branch. A call that answers
    [unlocked] or [try_again] has logged one attempt. *)
Theorem attempt_unlock_all_or_nothing (now : Z) (payload : AttemptIn.t) (d : db) :
  (forall e, fst (attempt_unlock now payload d) = Raise e ->
     snd (attempt_unlock now payload d) = d
     /\ (e = InvalidId \/ e = HTTPException 404 (lit "Lock not found")
         \/ e = TypeError))
  /\ (forall out, fst (attempt_unlock now payload d) = Ok out ->
        (out !! "status" = Some (VStr (lit "already_unlocked")) ->
         snd (attempt_unlock now payload d) = d)
        /\ (out !! "status" <> Some (VStr (lit "already_unlocked")) ->
            length (taskattempt (snd (attempt_unlock now payload d)))
            = S (length (taskattempt d)))).
Proof.
  unfold attempt_unlock.
  destruct (ObjectId (AttemptIn.lock_id payload)) as [oid | e] eqn:Hoid.
  2:{ split; [| discriminate]. intros e' [= <-]. split; [reflexivity |].
      left. exact (ObjectId_raises _ _ Hoid). }
  destruct (find_one oid (lockevent d)) as [lock |].
  2:{ split; [| discriminate]. intros e [= <-]. auto. }
  destruct (LockEvent.unlocked (fields lock)).
  { split; [discriminate |]. intros out [= <-]. split; [reflexivity |].
    rewrite status_lookup_status. congruence. }
  destruct (verify payload (fields lock)) as [[[|] detail] | e] eqn:Hv.
  - split; [discriminate |]. cbn [fst snd]. intros out [= <-].
    rewrite status_lookup_status. split; [discriminate |].
    intros _. unfold create_document_taskattempt, insert_one.
    cbn [snd taskattempt]. rewrite length_app. cbn [length]. lia.
  - split; [discriminate |]. cbn [fst snd]. intros out [= <-].
    rewrite status_detail_lookup_status. split; [discriminate |].
    intros _. unfold create_document_taskattempt, insert_one.
    cbn [snd taskattempt]. rewrite length_app. cbn [length]. lia.
  - split; [| discriminate]. intros e' [= <-]. split; [reflexivity |].
    right. right. unfold verify in Hv.
    destruct (AttemptIn.task_type payload); try discriminate.
    destruct (LockEvent.steps_target (fields lock)); cbn in Hv; congruence.
Qed.

Lemma attempt_unlock_all_or_nothing_witness :
  snd (attempt_unlock noon
         (AttemptIn.mk (str_oid 0) (lit "u1") steps None (Some 5)) puzzle_db)
  = puzzle_db
  /\ (TypeError = InvalidId
      \/ TypeError = HTTPException 404 (lit "Lock not found")
      \/ TypeError = TypeError).
Proof.
  apply (proj1 (attempt_unlock_all_or_nothing noon
                  (AttemptIn.mk (str_oid 0) (lit "u1") steps None (Some 5))
                  puzzle_db)).
  vm_refl.
Defined.

(** X6: which error a bad [lock_id] gives. A string that is not 24
    characters long is refused by [ObjectId] before the store is read:
    the error is the identifier error, not the 404. The 404 is for a
    well-formed identifier that no event has, such as any the store has
    not handed out yet. *)
Theorem attempt_unlock_bad_lock_id (now : Z) (payload : AttemptIn.t) (d : db) :
  (length (AttemptIn.lock_id payload) <> 24%nat ->
   attempt_unlock now payload d = (Raise InvalidId, d))
  /\ (forall n, db_wf d -> (next_id d <= n < OID_BOUND)%N ->
        AttemptIn.lock_id payload = str_oid n ->
        attempt_unlock now payload d
        = (Raise (HTTPException 404 (lit "Lock not found")), d)).
Proof.
  split.
  - intros Hlen. unfold attempt_unlock.
    destruct (ObjectId (AttemptIn.lock_id payload)) as [oid | e] eqn:Hoid.
    + exfalso. apply Hlen. exact (ObjectId_length _ _ Hoid).
    + rewrite (ObjectId_raises _ _ Hoid). reflexivity.
  - intros n (_ & _ & Hlocks & _) [Hlo Hhi] Hid. unfold attempt_unlock.
    rewrite Hid, ObjectId_str_oid by exact Hhi.
    rewrite find_one_fresh; [reflexivity |].
    eapply Forall_impl; [exact Hlocks |]. cbn. intros doc Hdoc. lia.
Qed.

Lemma attempt_unlock_bad_lock_id_witness :
  attempt_unlock noon (AttemptIn.mk (lit "lock-1") (lit "u1") puzzle None None)
    steps_db
  = (Raise InvalidId, steps_db).
Proof.
  apply (proj1 (attempt_unlock_bad_lock_id noon
                  (AttemptIn.mk (lit "lock-1") (lit "u1") puzzle None None)
                  steps_db)).
  cbn. discriminate.
Defined.

(** X7: a photo attempt on a locked event succeeds iff the submitted
    answer is a non-empty string. The answer is not trimmed and not
    compared with anything stored, so a single space unlocks; a missing
    or empty answer answers [try_again] with "photo missing". *)
Theorem photo_attempt_needs_any_answer (now : Z) (payload : AttemptIn.t)
  (d : db) (oid : N) (lock : stored LockEvent.t) :
  ObjectId (AttemptIn.lock_id payload) = Ok oid ->
  find_one oid (lockevent d) = Some lock ->
  LockEvent.unlocked (fields lock) = false ->
  AttemptIn.task_type payload = photo ->
  (forall c s, AttemptIn.answer payload = Some (c :: s) ->
     fst (attempt_unlock now payload d)
     = Ok {[ "status" := VStr (lit "unlocked") ]})
  /\ (AttemptIn.answer payload = None \/ AttemptIn.answer payload = Some [] ->
      fst (attempt_unlock now payload d)
      = Ok {[ "status" := VStr (lit "try_again");
              "detail" := VStr (lit "photo missing") ]}).
Proof.
  intros Hoid Hfind Hlocked Htype.
  assert (Hverify : verify payload (fields lock)
                    = Ok (bool_of_str (AttemptIn.answer payload),
                          if bool_of_str (AttemptIn.answer payload)
                          then lit "photo accepted" else lit "photo missing")).
  { unfold verify. rewrite Htype. reflexivity. }
  rewrite (attempt_unlock_locked now payload d oid lock _ _
             Hoid Hfind Hlocked Hverify).
  split.
  - intros c s ->. reflexivity.
  - intros [-> | ->]; reflexivity.
Qed.

Lemma photo_attempt_needs_any_answer_witness :
  fst (attempt_unlock noon
         (AttemptIn.mk (str_oid 0) (lit "u1") photo (Some (lit " ")) None)
         photo_db)
  = Ok {[ "status" := VStr (lit "unlocked") ]}.
Proof.
  refine (proj1 (photo_attempt_needs_any_answer noon
                   (AttemptIn.mk (str_oid 0) (lit "u1") photo (Some (lit " ")) None)
                   photo_db 0
                   (Stored 0 (lock_doc (lit "u1") None photo
                                (noon + 30 * US_PER_MINUTE) 5 7) None)
                   _ _ _ _) 32%N [] _).
  - vm_refl.
  - vm_refl.
  - reflexivity.
  - reflexivity.
  - reflexivity.
Defined.

(** X8: after a successful attempt the event is closed for good: every
    later attempt that names it, whatever its task type, answer, steps,
    user or time, answers [already_unlocked] and changes nothing; no
    further attempt is logged. *)
Theorem attempt_after_unlock (now : Z) (payload : AttemptIn.t) (d : db)
  (oid : N) (lock : stored LockEvent.t) (detail : pystr) :
  ObjectId (AttemptIn.lock_id payload) = Ok oid ->
  find_one oid (lockevent d) = Some lock ->
  LockEvent.unlocked (fields lock) = false ->
  verify payload (fields lock) = Ok (true, detail) ->
  let d' := snd (attempt_unlock now payload d) in
  forall now' payload',
    ObjectId (AttemptIn.lock_id payload') = Ok oid ->
    attempt_unlock now' payload' d'
    = (Ok {[ "status" := VStr (lit "already_unlocked") ]}, d').
Proof.
  intros Hoid Hfind Hlocked Hverify d' now' payload' Hoid'.
  apply (attempt_unlock_already now' payload' d' oid (mark_unlocked now lock));
    [exact Hoid' | | reflexivity].
  subst d'.
  rewrite (attempt_unlock_locked now payload d oid lock true detail)
    by assumption.
  cbn [snd lockevent].
  rewrite find_one_mark_unlocked, N.eqb_refl, Hfind. reflexivity.
Qed.

Lemma attempt_after_unlock_witness :
  attempt_unlock (noon + 1)
    (AttemptIn.mk (lit "000000000000000000000000") (lit "u2") puzzle
       (Some (lit "7")) None)
    (snd (attempt_unlock noon long_walk steps_db))
  = (Ok {[ "status" := VStr (lit "already_unlocked") ]},
     snd (attempt_unlock noon long_walk steps_db)).
Proof.
  apply (attempt_after_unlock noon long_walk steps_db 0 steps_lock
           (lit "30/30 steps")).
  - vm_refl.
  - vm_refl.
  - reflexivity.
  - vm_refl.
  - vm_refl.
Defined.

(** X9: [attempt_unlock] never compares the caller with the owner: the
    [user_id] of the payload changes neither the answer nor what happens
    to the lock events; it is only copied into the logged attempt. *)
Theorem attempt_ignores_user_id (now : Z) (payload : AttemptIn.t) (d : db)
  (other : pystr) :
  let payload' :=
    AttemptIn.mk (AttemptIn.lock_id payload) other
      (AttemptIn.task_type payload) (AttemptIn.answer payload)
      (AttemptIn.steps payload) in
  fst (attempt_unlock now payload' d) = fst (attempt_unlock now payload d)
  /\ lockevent (snd (attempt_unlock now payload' d))
     = lockevent (snd (attempt_unlock now payload d))
  /\ (forall out, fst (attempt_unlock now payload d) = Ok out ->
        out !! "status" <> Some (VStr (lit "already_unlocked")) ->
        exists rec,
          taskattempt (snd (attempt_unlock now payload' d))
          = taskattempt d ++ [rec]
          /\ TaskAttempt.user_id (fields rec) = other).
Proof.
  intros payload'. destruct payload as [lock_id user_id tt answer n].
  subst payload'. cbn [AttemptIn.lock_id AttemptIn.task_type AttemptIn.answer
                        AttemptIn.steps].
  unfold attempt_unlock. cbn [AttemptIn.lock_id].
  destruct (ObjectId lock_id) as [oid | e]; [| repeat split; discriminate].
  destruct (find_one oid (lockevent d)) as [lock |];
    [| repeat split; discriminate].
  destruct (LockEvent.unlocked (fields lock)).
  { repeat split. intros out [= <-]. rewrite status_lookup_status. congruence. }
  change (verify (AttemptIn.mk lock_id other tt answer n) (fields lock))
    with (verify (AttemptIn.mk lock_id user_id tt answer n) (fields lock)).
  destruct (verify _ (fields lock)) as [[[|] detail] | e];
    [| | repeat split; discriminate].
  - repeat split. intros out _ _. eexists. split; reflexivity.
  - repeat split. intros out _ _. eexists. split; reflexivity.
Qed.

(** X10: [attempt_unlock] never looks at [expires_at], at the stored
    [task_type], at the owner or at the clock: two calls with the same
    payload answer alike whenever the events they find agree on
    [unlocked], [puzzle_answer] and [steps_target]. An expired lock
    stays locked until its task is done, and can still be unlocked. *)
Theorem attempt_answer_depends_on (now1 now2 : Z) (payload : AttemptIn.t)
  (d1 d2 : db) (oid : N) (lock1 lock2 : stored LockEvent.t) :
  ObjectId (AttemptIn.lock_id payload) = Ok oid ->
  find_one oid (lockevent d1) = Some lock1 ->
  find_one oid (lockevent d2) = Some lock2 ->
  LockEvent.unlocked (fields lock1) = LockEvent.unlocked (fields lock2) ->
  LockEvent.puzzle_answer (fields lock1) = LockEvent.puzzle_answer (fields lock2) ->
  LockEvent.steps_target (fields lock1) = LockEvent.steps_target (fields lock2) ->
  fst (attempt_unlock now1 payload d1) = fst (attempt_unlock now2 payload d2).
Proof.
  intros Hoid Hfind1 Hfind2 Hunl Hanswer Htarget.
  assert (Hverify : verify payload (fields lock1) = verify payload (fields lock2)).
  { unfold verify. rewrite Hanswer, Htarget. reflexivity. }
  unfold attempt_unlock. rewrite Hoid, Hfind1, Hfind2, Hunl, Hverify.
  destruct (LockEvent.unlocked (fields lock2)); [reflexivity |].
  destruct (verify payload (fields lock2)) as [[[|] detail] | e]; reflexivity.
Qed.

Lemma attempt_answer_depends_on_witness :
  fst (attempt_unlock (noon + 31 * US_PER_MINUTE) long_walk steps_db)
  = fst (attempt_unlock noon long_walk
           (snd (simulate_lock noon 5 7 (lit "u2") (Some (lit "a1")) steps
                   100000 empty_db))).
Proof.
  apply (attempt_answer_depends_on _ _ long_walk _ _ 0 steps_lock
           (Stored 0 (lock_doc (lit "u2") (Some (lit "a1")) steps
                        (noon + 100000 * US_PER_MINUTE) 5 7) None)).
  - vm_refl.
  - vm_refl.
  - vm_refl.
  - reflexivity.
  - reflexivity.
  - reflexivity.
Defined.

Lemma attempt_ignores_user_id_witness :
  fst (attempt_unlock noon
         (AttemptIn.mk (AttemptIn.lock_id long_walk) (lit "stranger")
            (AttemptIn.task_type long_walk) (AttemptIn.answer long_walk)
            (AttemptIn.steps long_walk)) steps_db)
  = fst (attempt_unlock noon long_walk steps_db).
Proof.
  exact (proj1 (attempt_ignores_user_id noon long_walk steps_db (lit "stranger"))).
Defined.

(** ** From creation to unlocking *)

Lemma uint_chars_digits (u : Decimal.uint) :
  Forall (fun c => (48 <= c <= 57)%N) (uint_chars u).
Proof. induction u; cbn; constructor; (lia || assumption). Qed.

Lemma uint_chars_inj (u : Decimal.uint) : forall v,
  uint_chars u = uint_chars v -> u = v.
Proof.
  induction u; intros [] H; cbn in H; try discriminate; try reflexivity;
    injection H as H; f_equal; apply IHu; exact H.
Qed.

Lemma str_int_inj (x y : Z) : str_int x = str_int y -> x = y.
Proof.
  unfold str_int. intros H.
  rewrite <- (DecimalZ.of_to x), <- (DecimalZ.of_to y). f_equal.
  pose proof (uint_chars_digits) as Hdig.
  destruct (Z.to_int x) as [u | u], (Z.to_int y) as [v | v].
  - f_equal. apply uint_chars_inj, H.
  - exfalso. pose proof (Hdig u) as Hu. rewrite H in Hu.
    apply Forall_cons in Hu as [Hc _]. lia.
  - exfalso. pose proof (Hdig v) as Hv. rewrite <- H in Hv.
    apply Forall_cons in Hv as [Hc _]. lia.
  - injection H as H. f_equal. apply uint_chars_inj, H.
Qed.

Lemma str_int_no_space (z : Z) : Forall (fun c => isspace c = false) (str_int z).
Proof.
  assert (Hdigit : forall c, (48 <= c <= 57)%N -> isspace c = false).
  { intros c Hc. unfold isspace.
    repeat match goal with
           | |- context [(?a <=? ?b)%N] => destruct (N.leb_spec a b); try lia
           | |- context [(?a =? ?b)%N] => destruct (N.eqb_spec a b); try lia
           end; reflexivity. }
  unfold str_int. destruct (Z.to_int z) as [u | u].
  - eapply Forall_impl; [apply uint_chars_digits | exact Hdigit].
  - constructor; [reflexivity |].
    eapply Forall_impl; [apply uint_chars_digits | exact Hdigit].
Qed.

Lemma lstrip_no_space (s : pystr) :
  Forall (fun c => isspace c = false) s -> lstrip s = s.
Proof. destruct 1 as [| c s Hc _]; cbn; [reflexivity |]. rewrite Hc. reflexivity. Qed.

Lemma strip_no_space (s : pystr) :
  Forall (fun c => isspace c = false) s -> strip s = s.
Proof.
  intros H. unfold strip, rstrip. rewrite (lstrip_no_space s H).
  rewrite lstrip_no_space, rev_involutive; [reflexivity |].
  apply Forall_rev. exact H.
Qed.

(** The event [simulate_lock] has just created is the one its
    identifier resolves to. *)
Lemma created_lock_found (now r1 r2 : Z) (user_id : pystr)
  (alarm_id : option pystr) (task_type : TaskType) (lock_minutes : Z) (d : db) :
  db_wf d -> datetime_valid now ->
  datetime_valid (now + lock_minutes * US_PER_MINUTE) ->
  ObjectId (str_oid (next_id d)) = Ok (next_id d)
  /\ find_one (next_id d)
       (lockevent (snd (simulate_lock now r1 r2 user_id alarm_id task_type
                          lock_minutes d)))
     = Some (Stored (next_id d)
               (lock_doc user_id alarm_id task_type
                  (now + lock_minutes * US_PER_MINUTE) r1 r2) None).
Proof.
  intros Hwf Hnow Hexp.
  rewrite (simulate_lock_ok now r1 r2 user_id alarm_id task_type lock_minutes
             d Hwf Hnow Hexp).
  destruct Hwf as (Hid & _ & Hlocks & _).
  split; [apply ObjectId_str_oid, Hid |].
  cbn [snd lockevent]. rewrite find_one_app, find_one_fresh by exact Hlocks.
  unfold find_one. cbn [List.find _id]. rewrite N.eqb_refl. reflexivity.
Qed.

(** X11: the puzzle that [simulate_lock] makes can be solved, and only
    by its sum: an attempt on the new event with the decimal numeral of
    [a + b], with or without whitespace around it, answers [unlocked],
    and the numeral of any other integer answers [try_again]. *)
Theorem created_puzzle_is_solved_by_its_sum (now r1 r2 : Z) (user_id : pystr)
  (alarm_id : option pystr) (lock_minutes : Z) (d : db) :
  db_wf d -> datetime_valid now ->
  datetime_valid (now + lock_minutes * US_PER_MINUTE) ->
  let d1 := snd (simulate_lock now r1 r2 user_id alarm_id puzzle lock_minutes d) in
  let sum := randint 10 99 r1 + randint 10 99 r2 in
  forall now' who l r k,
    forallb isspace l = true -> forallb isspace r = true ->
    fst (attempt_unlock now'
           (AttemptIn.mk (str_oid (next_id d)) who puzzle
              (Some (l ++ str_int k ++ r)) None) d1)
    = Ok (if decide (k = sum)
          then {[ "status" := VStr (lit "unlocked") ]}
          else {[ "status" := VStr (lit "try_again");
                  "detail" := VStr (lit "incorrect") ]}).
Proof.
  intros Hwf Hnow Hexp d1 sum now' who l r k Hl Hr.
  destruct (created_lock_found now r1 r2 user_id alarm_id puzzle lock_minutes
              d Hwf Hnow Hexp) as [Hoid Hfind].
  fold d1 in Hfind.
  set (payload := AttemptIn.mk (str_oid (next_id d)) who puzzle
                    (Some (l ++ str_int k ++ r)) None).
  assert (Hverify : verify payload
                      (lock_doc user_id alarm_id puzzle
                         (now + lock_minutes * US_PER_MINUTE) r1 r2)
                    = Ok (pystr_eqb (str_int k) (str_int sum),
                          if pystr_eqb (str_int k) (str_int sum)
                          then lit "correct" else lit "incorrect")).
  { unfold verify, payload. cbn [AttemptIn.task_type AttemptIn.answer lock_doc
                                 challenge LockEvent.puzzle_answer str_opt].
    rewrite str_or_nil. cbv [default from_option id].
    rewrite strip_spaces by assumption.
    rewrite !strip_no_space by apply str_int_no_space. reflexivity. }
  rewrite (attempt_unlock_locked now' payload d1 (next_id d) _ _ _
             Hoid Hfind eq_refl Hverify).
  cbn [fst]. unfold pystr_eqb.
  destruct (decide (k = sum)) as [-> | Hne].
  - rewrite bool_decide_eq_true_2 by reflexivity. reflexivity.
  - rewrite bool_decide_eq_false_2; [reflexivity |].
    intros H. apply Hne, str_int_inj, H.
Qed.

Lemma created_puzzle_is_solved_by_its_sum_witness :
  fst (attempt_unlock (noon + 1)
         (AttemptIn.mk (str_oid (next_id empty_db)) (lit "u1") puzzle
            (Some (lit " " ++ str_int 32 ++ [])) None) puzzle_db)
  = Ok (if decide (32 = randint 10 99 5 + randint 10 99 7)
        then {[ "status" := VStr (lit "unlocked") ]}
        else {[ "status" := VStr (lit "try_again");
                "detail" := VStr (lit "incorrect") ]}).
Proof.
  apply (created_puzzle_is_solved_by_its_sum noon 5 7 (lit "u1") None 30
           empty_db).
  - exact empty_db_wf.
  - unfold datetime_valid, DATETIME_MAX, US_PER_DAY, noon. lia.
  - unfold datetime_valid, DATETIME_MAX, US_PER_DAY, US_PER_MINUTE, noon. lia.
  - reflexivity.
  - reflexivity.
Defined.

(** X12: the steps lock that [simulate_lock] makes has the fixed target
    30: an attempt on the new event answers [unlocked] from 30 steps on,
    and below that, or without a count, [try_again] with the count
    against 30. *)
Theorem created_steps_lock_needs_thirty (now r1 r2 : Z) (user_id : pystr)
  (alarm_id : option pystr) (lock_minutes : Z) (d : db) :
  db_wf d -> datetime_valid now ->
  datetime_valid (now + lock_minutes * US_PER_MINUTE) ->
  let d1 := snd (simulate_lock now r1 r2 user_id alarm_id steps lock_minutes d) in
  forall now' who answer n,
    fst (attempt_unlock now'
           (AttemptIn.mk (str_oid (next_id d)) who steps answer n) d1)
    = Ok (if decide (30 <= default 0 n)
          then {[ "status" := VStr (lit "unlocked") ]}
          else {[ "status" := VStr (lit "try_again");
                  "detail" := VStr (str_int (default 0 n) ++ lit "/30 steps") ]}).
Proof.
  intros Hwf Hnow Hexp d1 now' who answer n.
  destruct (created_lock_found now r1 r2 user_id alarm_id steps lock_minutes
              d Hwf Hnow Hexp) as [Hoid Hfind].
  fold d1 in Hfind.
  set (payload := AttemptIn.mk (str_oid (next_id d)) who steps answer n).
  assert (Hverify : verify payload
                      (lock_doc user_id alarm_id steps
                         (now + lock_minutes * US_PER_MINUTE) r1 r2)
                    = Ok (default 0 n >=? 30,
                          str_int (default 0 n) ++ lit "/30 steps")).
  { unfold verify, payload. cbn [AttemptIn.task_type AttemptIn.steps].
    rewrite int_or_zero. reflexivity. }
  rewrite (attempt_unlock_locked now' payload d1 (next_id d) _ _ _
             Hoid Hfind eq_refl Hverify).
  cbn [fst]. rewrite Z.geb_leb.
  destruct (decide (30 <= default 0 n)) as [Hge | Hlt].
  - rewrite (proj2 (Z.leb_le _ _) Hge). reflexivity.
  - rewrite (proj2 (Z.leb_gt _ _)) by lia. reflexivity.
Qed.

Lemma created_steps_lock_needs_thirty_witness :
  fst (attempt_unlock (noon + 1)
         (AttemptIn.mk (str_oid (next_id empty_db)) (lit "u1") steps None None)
         steps_db)
  = Ok (if decide (30 <= default 0 None)
        then {[ "status" := VStr (lit "unlocked") ]}
        else {[ "status" := VStr (lit "try_again");
                "detail" := VStr (str_int (default 0 None) ++ lit "/30 steps") ]}).
Proof.
  apply (created_steps_lock_needs_thirty noon 5 7 (lit "u1") None 30 empty_db).
  - exact empty_db_wf.
  - unfold datetime_valid, DATETIME_MAX, US_PER_DAY, noon. lia.
  - unfold datetime_valid, DATETIME_MAX, US_PER_DAY, US_PER_MINUTE, noon. lia.
Defined.

(** ** The response of lock creation *)

Lemma lockevent_out_model (e : LockEvent.t) (id iso : pyval) :
  response_model LockEventOut
    (delete "puzzle_answer"
       (<["expires_at" := iso]> (<["id" := id]> (LockEvent.items e))))
  = Ok {[ "id" := id;
          "user_id" := VStr (LockEvent.user_id e);
          "apps" := VStrList (LockEvent.apps e);
          "task_type" := VStr (TaskType_str (LockEvent.task_type e));
          "unlocked" := VBool (LockEvent.unlocked e);
          "expires_at" := iso;
          "alarm_id" := VOptStr (LockEvent.alarm_id e);
          "puzzle_question" := VOptStr (LockEvent.puzzle_question e);
          "steps_target" := VOptInt (LockEvent.steps_target e);
          "photo_required" := VOptBool (LockEvent.photo_required e) ]}.
Proof.
  destruct e as [u ap tt unl ex [al |] [q |] a [st |] [pr |]]; vm_refl.
Qed.

(** X13: in a well-formed store, with a representable expiry, the
    endpoint for lock creation always passes its response model and
    answers with exactly the ten fields of [LockEventOut]: the new
    identifier, the user, no apps, the task type, [unlocked = False],
    the expiry as ISO text, the alarm as given and the three task
    entries. A request without [task_type] or [lock_minutes] gets a
    puzzle and 30 minutes. *)
Theorem simulate_lock_response (now r1 r2 : Z) (user_id : pystr)
  (alarm_id : option pystr) (task_type : option TaskType)
  (lock_minutes : option Z) (d : db) :
  db_wf d -> datetime_valid now ->
  datetime_valid (now + default 30 lock_minutes * US_PER_MINUTE) ->
  let expires_at := now + default 30 lock_minutes * US_PER_MINUTE in
  let e := lock_doc user_id alarm_id (default puzzle task_type) expires_at r1 r2 in
  fst (handle (POST_locks_simulate now r1 r2 user_id alarm_id task_type
                 lock_minutes) d)
  = Ok (Object
          {[ "id" := VStr (str_oid (next_id d));
             "user_id" := VStr user_id;
             "apps" := VStrList [];
             "task_type" := VStr (TaskType_str (default puzzle task_type));
             "unlocked" := VBool false;
             "expires_at" := VStr (isoformat expires_at);
             "alarm_id" := VOptStr alarm_id;
             "puzzle_question" := VOptStr (LockEvent.puzzle_question e);
             "steps_target" := VOptInt (LockEvent.steps_target e);
             "photo_required" := VOptBool (LockEvent.photo_required e) ]}).
Proof.
  intros Hwf Hnow Hexp expires_at e. cbn [handle].
  rewrite (simulate_lock_ok now r1 r2 user_id alarm_id (default puzzle task_type)
             (default 30 lock_minutes) d Hwf Hnow Hexp).
  cbn [fst]. rewrite object_to_out_lockevent by reflexivity.
  cbn [fields _id]. fold expires_at. fold e.
  change (Object <$> response_model LockEventOut
            (delete "puzzle_answer"
               (<["expires_at" := VStr (isoformat (LockEvent.expires_at e))]>
                  (<["id" := VStr (str_oid (next_id d))]> (LockEvent.items e))))
          = Ok (Object
                  {[ "id" := VStr (str_oid (next_id d));
                     "user_id" := VStr user_id;
                     "apps" := VStrList [];
                     "task_type" := VStr (TaskType_str (default puzzle task_type));
                     "unlocked" := VBool false;
                     "expires_at" := VStr (isoformat expires_at);
                     "alarm_id" := VOptStr alarm_id;
                     "puzzle_question" := VOptStr (LockEvent.puzzle_question e);
                     "steps_target" := VOptInt (LockEvent.steps_target e);
                     "photo_required" := VOptBool (LockEvent.photo_required e) ]})).
  rewrite lockevent_out_model.
  subst e. destruct (default puzzle task_type); reflexivity.
Qed.

Lemma simulate_lock_response_witness :
  fst (handle (POST_locks_simulate noon 5 7 (lit "u1") None None None) empty_db)
  = Ok (Object
          {[ "id" := VStr (lit "000000000000000000000000");
             "user_id" := VStr (lit "u1");
             "apps" := VStrList [];
             "task_type" := VStr (lit "puzzle");
             "unlocked" := VBool false;
             "expires_at" := VStr (lit "2025-11-07T12:30:00+00:00");
             "alarm_id" := VNone;
             "puzzle_question" := VStr (lit "What is 15 + 17?");
             "steps_target" := VNone;
             "photo_required" := VNone ]}).
Proof.
  refine (eq_trans (simulate_lock_response noon 5 7 (lit "u1") None None None
                      empty_db empty_db_wf _ _) _).
  - unfold datetime_valid, DATETIME_MAX, US_PER_DAY, noon. lia.
  - unfold datetime_valid, DATETIME_MAX, US_PER_DAY, US_PER_MINUTE, noon.
    cbn. lia.
  - vm_refl.
Defined.

(** X14: [simulate_lock] checks neither the sign of [lock_minutes] nor
    the alarm it is given: with [lock_minutes <= 0] (and an expiry that
    is still a datetime) it stores a locked event that is expired from
    the start, and it stores [alarm_id] as given while leaving the
    alarms unread and unchanged. *)
Theorem simulate_lock_checks_nothing (now r1 r2 : Z) (user_id : pystr)
  (alarm_id : option pystr) (task_type : TaskType) (lock_minutes : Z) (d : db) :
  db_wf d -> datetime_valid now -> lock_minutes <= 0 ->
  0 <= now + lock_minutes * US_PER_MINUTE ->
  exists out saved,
    simulate_lock now r1 r2 user_id alarm_id task_type lock_minutes d
    = (Ok out,
       mkdb (alarm d) (lockevent d ++ [saved]) (taskattempt d) (next_id d + 1))
    /\ LockEvent.expires_at (fields saved) <= now
    /\ LockEvent.unlocked (fields saved) = false
    /\ LockEvent.alarm_id (fields saved) = alarm_id.
Proof.
  intros Hwf Hnow Hneg Hmin.
  assert (Hexp : datetime_valid (now + lock_minutes * US_PER_MINUTE)).
  { unfold datetime_valid, US_PER_MINUTE in *. lia. }
  pose proof (simulate_lock_ok now r1 r2 user_id alarm_id task_type
                lock_minutes d Hwf Hnow Hexp) as Hok.
  cbv zeta in Hok.
  eexists _, _. split; [exact Hok |]. cbn [fields].
  destruct task_type; cbn; (split; [unfold US_PER_MINUTE; lia | split; reflexivity]).
Qed.

Lemma simulate_lock_checks_nothing_witness :
  exists out saved,
    simulate_lock noon 5 7 (lit "u1") (Some (lit "no such alarm")) photo (-60)
      empty_db
    = (Ok out,
       mkdb (alarm empty_db) (lockevent empty_db ++ [saved])
            (taskattempt empty_db) (next_id empty_db + 1))
    /\ LockEvent.expires_at (fields saved) <= noon
    /\ LockEvent.unlocked (fields saved) = false
    /\ LockEvent.alarm_id (fields saved) = Some (lit "no such alarm").
Proof.
  apply simulate_lock_checks_nothing.
  - exact empty_db_wf.
  - unfold datetime_valid, DATETIME_MAX, US_PER_DAY, noon. lia.
  - lia.
  - unfold US_PER_MINUTE, noon. lia.
Defined.

(** ** What every reachable store satisfies *)

Lemma lock_doc_shape (user_id : pystr) (alarm_id : option pystr)
  (task_type : TaskType) (expires_at r1 r2 : Z) :
  lock_shape (lock_doc user_id alarm_id task_type expires_at r1 r2).
Proof.
  split; [destruct task_type; reflexivity |].
  destruct task_type; cbn; repeat split.
  exists (randint 10 99 r1), (randint 10 99 r2).
  repeat split; try (apply randint_range; lia).
Qed.

Lemma set_unlocked_shape (e : LockEvent.t) :
  lock_shape e -> lock_shape (LockEvent.set_unlocked e).
Proof. destruct e. exact (fun H => H). Qed.

Lemma update_one_Forall {A} (P : stored A -> Prop) (oid : N)
  (f : stored A -> stored A) (l : list (stored A)) :
  (forall x, P x -> P (f x)) -> Forall P l -> Forall P (update_one oid f l).
Proof.
  intros Hf. induction 1 as [| x l Hx Hl IH]; cbn; [constructor |].
  destruct (_id x =? oid)%N; constructor; auto.
Qed.

(** One request and the lock events, with what is appended spelled out. *)
Lemma handle_lockevent_step (req : request) (d : db) :
  lockevent (snd (handle req d)) = lockevent d
  \/ (exists oid user_id alarm_id task_type expires_at r1 r2,
        lockevent (snd (handle req d))
        = lockevent d ++ [Stored oid (lock_doc user_id alarm_id task_type
                                        expires_at r1 r2) None])
  \/ (exists oid now, lockevent (snd (handle req d))
                      = update_one oid (mark_unlocked now) (lockevent d)).
Proof.
  destruct req as [| | payload | user_id | now r1 r2 user_id alarm_id tt lm
                  | now payload | user_id | env];
    cbn [handle]; try (left; reflexivity).
  - left. rewrite <- (create_alarm_lockevent payload d).
    destruct (create_alarm payload d). reflexivity.
  - destruct (simulate_lock now r1 r2 user_id alarm_id (default puzzle tt)
                (default 30 lm) d) as [r d'] eqn:Hsim.
    cbn [snd]. unfold simulate_lock in Hsim.
    destruct (_ ≫= _) as [expires_at | e];
      [| injection Hsim as _ <-; left; reflexivity].
    right. left.
    exists (next_id d), user_id, alarm_id, (default puzzle tt), expires_at, r1, r2.
    cbn [create_document_lockevent] in Hsim.
    destruct (ObjectId _); [| injection Hsim as _ <-; reflexivity].
    destruct (find_one _ _); injection Hsim as _ <-; reflexivity.
  - pose proof (attempt_unlock_lockevent now payload d) as H.
    destruct (attempt_unlock now payload d) as [r d']. cbn [snd] in *.
    destruct H as [H | [oid H]]; [left; exact H |].
    right. right. exists oid, now. exact H.
Qed.

Lemma handle_keeps_shape (req : request) (d : db) :
  Forall (fun doc => lock_shape (fields doc)) (lockevent d) ->
  Forall (fun doc => lock_shape (fields doc)) (lockevent (snd (handle req d))).
Proof.
  intros H.
  destruct (handle_lockevent_step req d)
    as [-> | [(oid & u & al & tt & ex & r1 & r2 & ->) | (oid & now & ->)]].
  - exact H.
  - apply Forall_app. split; [exact H |].
    constructor; [apply lock_doc_shape | constructor].
  - apply update_one_Forall; [| exact H].
    intros x Hx. apply set_unlocked_shape, Hx.
Qed.

(** X15: every lock event of a store reached from the empty store has
    the entries of its own task type and no others: a puzzle event its
    prompt for two operands of 10..99 and their sum as secret, a steps
    event the target 30, a photo event [photo_required = True]; [apps]
    is always empty. Unlocking does not disturb this. *)
Theorem lock_events_keep_their_shape (reqs : list request) (d : db) :
  Forall (fun doc => lock_shape (fields doc)) (lockevent d) ->
  Forall (fun doc => lock_shape (fields doc)) (lockevent (run reqs d)).
Proof.
  revert d. induction reqs as [| req reqs IH]; intros d H; [exact H |].
  apply IH, handle_keeps_shape, H.
Qed.

Lemma lock_events_keep_their_shape_witness :
  Forall (fun doc => lock_shape (fields doc))
    (lockevent (run scenario steps_db)).
Proof.
  apply lock_events_keep_their_shape.
  change steps_db with (run [POST_locks_simulate noon 5 7 (lit "u1") None
                               (Some steps) (Some 30)] empty_db).
  apply lock_events_keep_their_shape. constructor.
Defined.

(** X16: on the events that the endpoints create, an attempt on a
    locked event raises exactly when [steps] is submitted against an
    event of another task type, and what it raises is the [TypeError]
    of [int(None)]; in every other pairing of stored and submitted
    type it answers [unlocked] or [try_again]. *)
Theorem attempt_raises_iff_steps_mismatch (now : Z) (payload : AttemptIn.t)
  (d : db) (oid : N) (lock : stored LockEvent.t) :
  Forall (fun doc => lock_shape (fields doc)) (lockevent d) ->
  ObjectId (AttemptIn.lock_id payload) = Ok oid ->
  find_one oid (lockevent d) = Some lock ->
  LockEvent.unlocked (fields lock) = false ->
  (AttemptIn.task_type payload = steps
   /\ LockEvent.task_type (fields lock) <> steps ->
   attempt_unlock now payload d = (Raise TypeError, d))
  /\ (AttemptIn.task_type payload <> steps
      \/ LockEvent.task_type (fields lock) = steps ->
      exists out,
        fst (attempt_unlock now payload d) = Ok out
        /\ (out = {[ "status" := VStr (lit "unlocked") ]}
            \/ exists detail,
                 out = {[ "status" := VStr (lit "try_again");
                          "detail" := VStr detail ]})).
Proof.
  intros Hshape Hoid Hfind Hlocked.
  assert (Hlock : lock_shape (fields lock)).
  { rewrite Forall_forall in Hshape. apply Hshape.
    apply list_elem_of_In. unfold find_one in Hfind.
    apply find_some in Hfind as [Hin _]. exact Hin. }
  destruct Hlock as [_ Hlock].
  split.
  - intros [Hsub Hstored].
    apply (attempt_unlock_raises now payload d oid lock); try assumption.
    unfold verify. rewrite Hsub.
    destruct (LockEvent.task_type (fields lock)); [| | congruence].
    + destruct Hlock as (_ & _ & Ht & _). rewrite Ht. reflexivity.
    + destruct Hlock as (_ & Ht & _). rewrite Ht. reflexivity.
  - intros Hcase.
    assert (Hret : AttemptIn.task_type payload <> steps
                   \/ is_Some (LockEvent.steps_target (fields lock))).
    { destruct Hcase as [H | H]; [left; exact H | right].
      rewrite H in Hlock. destruct Hlock as (_ & _ & -> & _). eauto. }
    destruct (verify_returns payload (fields lock) Hret)
      as (success & detail & Hverify).
    rewrite (attempt_unlock_locked now payload d oid lock success detail)
      by assumption.
    eexists. split; [reflexivity |].
    destruct success; [left; reflexivity | right; eauto].
Qed.

Lemma attempt_raises_iff_steps_mismatch_witness :
  attempt_unlock noon
    (AttemptIn.mk (str_oid 0) (lit "u1") steps None (Some 99)) photo_db
  = (Raise TypeError, photo_db).
Proof.
  refine (proj1 (attempt_raises_iff_steps_mismatch noon
                   (AttemptIn.mk (str_oid 0) (lit "u1") steps None (Some 99))
                   photo_db 0
                   (Stored 0 (lock_doc (lit "u1") None photo
                                (noon + 30 * US_PER_MINUTE) 5 7) None)
                   _ _ _ _) _).
  - change photo_db with (run [POST_locks_simulate noon 5 7 (lit "u1") None
                                 (Some photo) (Some 30)] empty_db).
    apply handle_keeps_shape. constructor.
  - vm_refl.
  - vm_refl.
  - reflexivity.
  - split; [reflexivity | discriminate].
Defined.

Lemma create_alarm_alarm (payload : AlarmCreate.t) (d : db) :
  alarm (snd (create_alarm payload d)) = alarm d
  \/ (alarm_valid (alarm_of payload)
      /\ alarm (snd (create_alarm payload d))
         = alarm d ++ [Stored (next_id d) (alarm_of payload) None]).
Proof.
  unfold create_alarm. fold (has_colon (AlarmCreate.alarm_time payload)).
  destruct (has_colon (AlarmCreate.alarm_time payload)) eqn:Hcolon;
    [| left; reflexivity].
  cbn [negb].
  destruct (Z.leb_spec 5 (AlarmCreate.lock_duration_minutes payload)) as [Hlo | Hlo];
    [| rewrite validate_rejects by (unfold duration_ok; lia); left; reflexivity].
  destruct (Z.leb_spec (AlarmCreate.lock_duration_minutes payload) 1440) as [Hhi | Hhi];
    [| rewrite validate_rejects by (unfold duration_ok; lia); left; reflexivity].
  rewrite validate_ok by (split; assumption).
  right. split; [split; [exact Hcolon | split; assumption] |].
  cbn [create_document_alarm].
  destruct (ObjectId _); [| reflexivity].
  destruct (find_one _ _); reflexivity.
Qed.

Lemma simulate_lock_others (now r1 r2 : Z) (user_id : pystr)
  (alarm_id : option pystr) (task_type : TaskType) (lock_minutes : Z) (d : db) :
  alarm (snd (simulate_lock now r1 r2 user_id alarm_id task_type lock_minutes d))
  = alarm d
  /\ taskattempt (snd (simulate_lock now r1 r2 user_id alarm_id task_type
                         lock_minutes d)) = taskattempt d.
Proof.
  unfold simulate_lock.
  destruct (_ ≫= _); [| split; reflexivity].
  cbn [create_document_lockevent].
  destruct (ObjectId _); [| split; reflexivity].
  destruct (find_one _ _); split; reflexivity.
Qed.

Lemma create_alarm_taskattempt (payload : AlarmCreate.t) (d : db) :
  taskattempt (snd (create_alarm payload d)) = taskattempt d.
Proof.
  unfold create_alarm.
  destruct (negb _); [reflexivity |].
  destruct (Alarm.validate payload); [| reflexivity].
  cbn [create_document_alarm].
  destruct (ObjectId _); [| reflexivity].
  destruct (find_one _ _); reflexivity.
Qed.

Lemma attempt_unlock_others (now : Z) (payload : AttemptIn.t) (d : db) :
  alarm (snd (attempt_unlock now payload d)) = alarm d
  /\ exists rest, taskattempt (snd (attempt_unlock now payload d))
                  = taskattempt d ++ rest.
Proof.
  unfold attempt_unlock.
  destruct (ObjectId _) as [oid | e];
    [| split; [reflexivity | exists []; symmetry; apply app_nil_r]].
  destruct (find_one oid (lockevent d)) as [lock |];
    [| split; [reflexivity | exists []; symmetry; apply app_nil_r]].
  destruct (LockEvent.unlocked (fields lock));
    [split; [reflexivity | exists []; symmetry; apply app_nil_r] |].
  destruct (verify payload (fields lock)) as [[[|] detail] | e];
    (split; [reflexivity |]);
    [eexists; reflexivity | eexists; reflexivity
     | exists []; symmetry; apply app_nil_r].
Qed.

Lemma handle_alarm (req : request) (d : db) :
  alarm (snd (handle req d)) = alarm d
  \/ exists oid a, alarm_valid a
                   /\ alarm (snd (handle req d)) = alarm d ++ [Stored oid a None].
Proof.
  destruct req as [| | payload | user_id | now r1 r2 user_id alarm_id tt lm
                  | now payload | user_id | env];
    cbn [handle]; try (left; reflexivity).
  - pose proof (create_alarm_alarm payload d) as H.
    destruct (create_alarm payload d) as [r d']. cbn [snd] in *.
    destruct H as [H | [Hv H]]; [left; exact H | right; eauto].
  - left.
    pose proof (simulate_lock_others now r1 r2 user_id alarm_id
                  (default puzzle tt) (default 30 lm) d) as [H _].
    destruct (simulate_lock _ _ _ _ _ _ _ d). exact H.
  - left. pose proof (attempt_unlock_others now payload d) as [H _].
    destruct (attempt_unlock now payload d). exact H.
Qed.

(** X17: every alarm of a store reached from the empty store has a
    colon in its [alarm_time] and a [lock_duration_minutes] within
    5..1440; no request stores an alarm that [Alarm] would refuse, and
    no request changes or removes a stored alarm. *)
Theorem stored_alarms_are_valid (reqs : list request) (d : db) :
  Forall (fun doc => alarm_valid (fields doc)) (alarm d) ->
  Forall (fun doc => alarm_valid (fields doc)) (alarm (run reqs d))
  /\ exists newer, alarm (run reqs d) = alarm d ++ newer.
Proof.
  revert d. induction reqs as [| req reqs IH]; intros d H.
  - split; [exact H | exists []; symmetry; apply app_nil_r].
  - cbn [run foldl]. fold (run reqs (snd (handle req d))).
    destruct (handle_alarm req d) as [Heq | (oid & a & Hv & Heq)].
    + destruct (IH (snd (handle req d))) as [IH1 [newer IH2]];
        [rewrite Heq; exact H |].
      split; [exact IH1 |]. exists newer. rewrite IH2, Heq. reflexivity.
    + destruct (IH (snd (handle req d))) as [IH1 [newer IH2]].
      { rewrite Heq. apply Forall_app. split; [exact H |].
        constructor; [exact Hv | constructor]. }
      split; [exact IH1 |].
      exists (Stored oid a None :: newer).
      rewrite IH2, Heq, <- app_assoc. reflexivity.
Qed.

Lemma stored_alarms_are_valid_witness :
  Forall (fun doc => alarm_valid (fields doc))
    (alarm (run [POST_alarms wake_up;
                 POST_alarms (AlarmCreate.mk (lit "u1") None (lit "0630") [] 30
                                puzzle);
                 POST_alarms (AlarmCreate.mk (lit "u1") None (lit "06:30") [] 3
                                puzzle)] empty_db))
  /\ exists newer,
       alarm (run [POST_alarms wake_up;
                   POST_alarms (AlarmCreate.mk (lit "u1") None (lit "0630") [] 30
                                  puzzle);
                   POST_alarms (AlarmCreate.mk (lit "u1") None (lit "06:30") [] 3
                                  puzzle)] empty_db)
       = alarm empty_db ++ newer.
Proof.
  apply stored_alarms_are_valid. constructor.
Defined.

Example only_the_valid_alarm_is_stored :
  map (fun doc => Alarm.alarm_time (fields doc))
    (alarm (run [POST_alarms wake_up;
                 POST_alarms (AlarmCreate.mk (lit "u1") None (lit "0630") [] 30
                                puzzle);
                 POST_alarms (AlarmCreate.mk (lit "u1") None (lit "06:30") [] 3
                                puzzle)] empty_db))
  = [lit "06:30"].
Proof. vm_refl. Qed.

Lemma same_event_refl (doc : stored LockEvent.t) : same_event doc doc.
Proof. repeat split. exact (fun H => H). Qed.

Lemma same_event_trans (a b c : stored LockEvent.t) :
  same_event a b -> same_event b c -> same_event a c.
Proof.
  intros (H1 & H2 & H3) (H4 & H5 & H6). repeat split; try congruence. auto.
Qed.

Lemma same_event_mark_unlocked (now : Z) (doc : stored LockEvent.t) :
  same_event doc (mark_unlocked now doc).
Proof. destruct doc as [oid [] u]. repeat split. Qed.

Lemma update_one_lookup {A} (oid : N) (f : stored A -> stored A)
  (l : list (stored A)) : forall (i : nat) (x : stored A),
  l !! i = Some x ->
  update_one oid f l !! i = Some x \/ update_one oid f l !! i = Some (f x).
Proof.
  induction l as [| y l IH]; intros i x Hi; [discriminate |].
  cbn [update_one]. destruct (_id y =? oid)%N.
  - destruct i as [| i]; cbn in *; [injection Hi as <-; right; reflexivity |].
    left. exact Hi.
  - destruct i as [| i]; cbn in *; [left; exact Hi | apply IH, Hi].
Qed.

Lemma handle_taskattempt (req : request) (d : db) :
  exists rest, taskattempt (snd (handle req d)) = taskattempt d ++ rest.
Proof.
  destruct req as [| | payload | user_id | now r1 r2 user_id alarm_id tt lm
                  | now payload | user_id | env];
    cbn [handle]; try (exists []; symmetry; apply app_nil_r).
  - exists []. rewrite app_nil_r, <- (create_alarm_taskattempt payload d).
    destruct (create_alarm payload d). reflexivity.
  - exists []. rewrite app_nil_r.
    pose proof (simulate_lock_others now r1 r2 user_id alarm_id
                  (default puzzle tt) (default 30 lm) d) as [_ H].
    destruct (simulate_lock _ _ _ _ _ _ _ d). exact H.
  - pose proof (attempt_unlock_others now payload d) as [_ H].
    destruct (attempt_unlock now payload d). exact H.
Qed.

Lemma handle_same_event (req : request) (d : db) (i : nat)
  (doc : stored LockEvent.t) :
  lockevent d !! i = Some doc ->
  exists doc', lockevent (snd (handle req d)) !! i = Some doc'
               /\ same_event doc doc'.
Proof.
  intros Hi.
  destruct (handle_lockevent req d) as [H | [(x & H & _) | (oid & now & H)]];
    rewrite H.
  - exists doc. split; [exact Hi | apply same_event_refl].
  - exists doc. split; [| apply same_event_refl].
    apply lookup_app_l_Some, Hi.
  - destruct (update_one_lookup oid (mark_unlocked now) (lockevent d) i doc Hi)
      as [H' | H'].
    + exists doc. split; [exact H' | apply same_event_refl].
    + exists (mark_unlocked now doc).
      split; [exact H' | apply same_event_mark_unlocked].
Qed.

(** X18: nothing stored is ever removed or rewritten, but for
    unlocking. Under every sequence of requests the attempt log and the
    alarms only grow at the end, and a lock event stays where it is with
    its identifier and all its fields, the secret and the expiry among
    them; only [unlocked] can change, and only to true. *)
Theorem store_only_grows (reqs : list request) (d : db) :
  (exists later, taskattempt (run reqs d) = taskattempt d ++ later)
  /\ (forall i doc, lockevent d !! i = Some doc ->
        exists doc', lockevent (run reqs d) !! i = Some doc'
                     /\ same_event doc doc').
Proof.
  revert d. induction reqs as [| req reqs IH]; intros d.
  - split; [exists []; symmetry; apply app_nil_r |].
    intros i doc Hi. exists doc. split; [exact Hi | apply same_event_refl].
  - cbn [run foldl]. fold (run reqs (snd (handle req d))).
    destruct (IH (snd (handle req d))) as [[later IH1] IH2].
    split.
    + destruct (handle_taskattempt req d) as [rest Hrest].
      exists (rest ++ later). rewrite IH1, Hrest, app_assoc. reflexivity.
    + intros i doc Hi.
      destruct (handle_same_event req d i doc Hi) as (doc1 & Hi1 & Hs1).
      destruct (IH2 i doc1 Hi1) as (doc2 & Hi2 & Hs2).
      exists doc2. split; [exact Hi2 | exact (same_event_trans _ _ _ Hs1 Hs2)].
Qed.

Lemma store_only_grows_witness :
  exists doc', lockevent (run scenario steps_db) !! 0%nat = Some doc'
               /\ same_event steps_lock doc'.
Proof.
  apply (proj2 (store_only_grows scenario steps_db) 0%nat steps_lock).
  vm_refl.
Defined.

(** ** Insights follow the attempts *)

Lemma filter_update_one_length {A} (P : stored A -> Prop)
  `{forall x, Decision (P x)} (oid : N) (f : stored A -> stored A)
  (l : list (stored A)) (x : stored A) :
  find_one oid l = Some x ->
  (length (filter P (update_one oid f l)) + (if decide (P x) then 1 else 0)
   = length (filter P l) + (if decide (P (f x)) then 1 else 0))%nat.
Proof.
  unfold find_one. induction l as [| y l IH]; [discriminate |].
  cbn [List.find update_one]. destruct (_id y =? oid)%N.
  - intros [= ->]. rewrite !filter_cons.
    destruct (decide (P x)), (decide (P (f x))); cbn [length]; lia.
  - intros Hx. specialize (IH Hx). rewrite !filter_cons.
    destruct (decide (P y)); cbn [length]; lia.
Qed.

Lemma find_one_In {A} (oid : N) (l : list (stored A)) (x : stored A) :
  find_one oid l = Some x -> x ∈ l.
Proof.
  unfold find_one. intros H. apply find_some in H as [H _].
  apply list_elem_of_In, H.
Qed.

(** X19: what a successful attempt does to the insights of the owner of
    the event: [total_locks] stays (and is not zero), [unlocked] goes up
    by exactly one and [success_rate] with it, and the attempt counts
    for the owner's average only if the caller gave the owner's
    [user_id]; it counts for whoever the caller said to be. *)
Theorem insights_after_successful_attempt (now : Z) (payload : AttemptIn.t)
  (d : db) (oid : N) (lock : stored LockEvent.t) (detail : pystr) :
  ObjectId (AttemptIn.lock_id payload) = Ok oid ->
  find_one oid (lockevent d) = Some lock ->
  LockEvent.unlocked (fields lock) = false ->
  verify payload (fields lock) = Ok (true, detail) ->
  let owner := LockEvent.user_id (fields lock) in
  let total_locks := Z.of_nat (length (locks_of owner d)) in
  let unlocked := Z.of_nat (length (unlocked_locks_of owner d)) in
  let attempts_count := Z.of_nat (length (attempts_of owner d)) in
  let counted := if decide (AttemptIn.user_id payload = owner) then 1 else 0 in
  0 < total_locks
  /\ morning_insights owner (snd (attempt_unlock now payload d))
     = Ok {[ "total_locks" := VInt total_locks;
             "unlocked" := VInt (unlocked + 1);
             "success_rate" := VQuot (unlocked + 1) total_locks;
             "avg_attempts_per_lock" :=
               VQuot (attempts_count + counted) total_locks ]}.
Proof.
  intros Hoid Hfind Hlocked Hverify owner total_locks unlocked attempts_count
    counted.
  assert (Hpos : 0 < total_locks).
  { subst total_locks. unfold locks_of.
    assert (Hin : lock ∈ filter (fun doc => LockEvent.user_id (fields doc) = owner)
                           (lockevent d)).
    { apply list_elem_of_filter. split; [reflexivity |].
      exact (find_one_In _ _ _ Hfind). }
    destruct (filter _ (lockevent d)); [inversion Hin | cbn [length]; lia]. }
  split; [exact Hpos |].
  rewrite (attempt_unlock_locked now payload d oid lock true detail)
    by assumption.
  cbn [snd].
  set (d' := mkdb _ _ _ _).
  assert (Htotal : Z.of_nat (length (locks_of owner d')) = total_locks).
  { subst total_locks d'. unfold locks_of. cbn [lockevent]. f_equal.
    pose proof (filter_update_one_length
                  (fun doc => LockEvent.user_id (fields doc) = owner)
                  oid (mark_unlocked now) (lockevent d) lock Hfind) as H.
    destruct lock as [i [] u]. cbn in *.
    repeat case_decide; try congruence; lia. }
  assert (Hunl : Z.of_nat (length (unlocked_locks_of owner d')) = unlocked + 1).
  { subst unlocked d'. unfold unlocked_locks_of. cbn [lockevent].
    pose proof (filter_update_one_length
                  (fun doc => LockEvent.user_id (fields doc) = owner
                              /\ LockEvent.unlocked (fields doc) = true)
                  oid (mark_unlocked now) (lockevent d) lock Hfind) as H.
    subst owner. destruct lock as [i [] u]. cbn in *. subst.
    repeat case_decide; try (intuition congruence); lia. }
  assert (Hatt : Z.of_nat (length (attempts_of owner d'))
                 = attempts_count + counted).
  { subst attempts_count counted d'. unfold attempts_of. cbn [taskattempt].
    rewrite filter_app, length_app, filter_cons, filter_nil.
    unfold attempt_record. cbn [fields TaskAttempt.user_id].
    repeat case_decide; try congruence; cbn [length]; lia. }
  destruct (morning_insights_returns owner d') as (sr & avg & Heq & Hrates).
  rewrite Heq, Htotal, Hunl in *. rewrite Hatt in Hrates.
  destruct (Z.eqb_spec total_locks 0) as [Hz | _]; [lia |].
  injection Hrates as -> ->. reflexivity.
Qed.

Lemma insights_after_successful_attempt_witness :
  0 < Z.of_nat (length (locks_of (lit "u1") steps_db))
  /\ morning_insights (lit "u1") (snd (attempt_unlock noon long_walk steps_db))
     = Ok {[ "total_locks" := VInt (Z.of_nat (length (locks_of (lit "u1") steps_db)));
             "unlocked" :=
               VInt (Z.of_nat (length (unlocked_locks_of (lit "u1") steps_db)) + 1);
             "success_rate" :=
               VQuot (Z.of_nat (length (unlocked_locks_of (lit "u1") steps_db)) + 1)
                     (Z.of_nat (length (locks_of (lit "u1") steps_db)));
             "avg_attempts_per_lock" :=
               VQuot (Z.of_nat (length (attempts_of (lit "u1") steps_db))
                      + (if decide (AttemptIn.user_id long_walk = lit "u1")
                         then 1 else 0))
                     (Z.of_nat (length (locks_of (lit "u1") steps_db))) ]}.
Proof.
  apply (insights_after_successful_attempt noon long_walk steps_db 0 steps_lock
           (lit "30/30 steps")).
  - vm_refl.
  - vm_refl.
  - reflexivity.
  - vm_refl.
Defined.

(** ** The diagnostic endpoint *)




(** X21: a new lock shows in the insights of its user and of nobody
    else: for the user, [total_locks] goes up by one while [unlocked]
    and the attempts stay, so a success rate that was defined can only
    fall or stay; for every other user the insights are unchanged. *)
Theorem insights_after_simulate_lock (now r1 r2 : Z) (user_id : pystr)
  (alarm_id : option pystr) (task_type : TaskType) (lock_minutes : Z) (d : db) :
  db_wf d -> datetime_valid now ->
  datetime_valid (now + lock_minutes * US_PER_MINUTE) ->
  let d1 := snd (simulate_lock now r1 r2 user_id alarm_id task_type
                   lock_minutes d) in
  morning_insights user_id d1
  = Ok {[ "total_locks" := VInt (Z.of_nat (length (locks_of user_id d)) + 1);
          "unlocked" := VInt (Z.of_nat (length (unlocked_locks_of user_id d)));
          "success_rate" :=
            VQuot (Z.of_nat (length (unlocked_locks_of user_id d)))
                  (Z.of_nat (length (locks_of user_id d)) + 1);
          "avg_attempts_per_lock" :=
            VQuot (Z.of_nat (length (attempts_of user_id d)))
                  (Z.of_nat (length (locks_of user_id d)) + 1) ]}
  /\ (forall other, other <> user_id ->
        morning_insights other d1 = morning_insights other d).
Proof.
  intros Hwf Hnow Hexp d1. subst d1.
  rewrite (simulate_lock_ok now r1 r2 user_id alarm_id task_type lock_minutes
             d Hwf Hnow Hexp).
  cbn [snd]. set (d1 := mkdb _ _ _ _).
  assert (Huser : forall u,
            LockEvent.user_id
              (lock_doc user_id alarm_id task_type
                 (now + lock_minutes * US_PER_MINUTE) r1 r2) = u
            <-> user_id = u).
  { intros u. destruct task_type; reflexivity. }
  assert (Hlocked : LockEvent.unlocked
                      (lock_doc user_id alarm_id task_type
                         (now + lock_minutes * US_PER_MINUTE) r1 r2) = false).
  { apply lock_doc_expires_at. }
  assert (Hlocks : forall u,
            length (locks_of u d1)
            = (length (locks_of u d) + if decide (user_id = u) then 1 else 0)%nat).
  { intros u. unfold locks_of, d1. cbn [lockevent].
    rewrite filter_app, length_app, filter_cons, filter_nil. cbn [fields].
    repeat case_decide; cbn [length]; try reflexivity;
      exfalso; rewrite Huser in *; contradiction. }
  assert (Hunl : forall u, unlocked_locks_of u d1 = unlocked_locks_of u d).
  { intros u. unfold unlocked_locks_of, d1. cbn [lockevent].
    rewrite filter_app, filter_cons, filter_nil. cbn [fields].
    case_decide as Hc; [| apply app_nil_r].
    destruct Hc as [_ Hc]. congruence. }
  assert (Hatt : forall u, attempts_of u d1 = attempts_of u d) by reflexivity.
  split.
  - destruct (morning_insights_returns user_id d1) as (sr & avg & Heq & Hrates).
    assert (HT : Z.of_nat (length (locks_of user_id d1))
                 = Z.of_nat (length (locks_of user_id d)) + 1).
    { rewrite Hlocks, decide_True by reflexivity. lia. }
    rewrite Heq. rewrite HT, Hunl, Hatt in Hrates. rewrite HT, Hunl.
    destruct (Z.eqb_spec (Z.of_nat (length (locks_of user_id d)) + 1) 0) as [Hz | _];
      [lia |].
    injection Hrates as -> ->. reflexivity.
  - intros other Hother. unfold morning_insights.
    rewrite Hlocks, Hunl, Hatt. rewrite decide_False by congruence.
    rewrite Nat.add_0_r. reflexivity.
Qed.

Lemma insights_after_simulate_lock_witness :
  morning_insights (lit "u1")
    (snd (simulate_lock noon 5 7 (lit "u1") None steps 30 empty_db))
  = Ok {[ "total_locks" := VInt (Z.of_nat (length (locks_of (lit "u1") empty_db)) + 1);
          "unlocked" := VInt (Z.of_nat (length (unlocked_locks_of (lit "u1") empty_db)));
          "success_rate" :=
            VQuot (Z.of_nat (length (unlocked_locks_of (lit "u1") empty_db)))
                  (Z.of_nat (length (locks_of (lit "u1") empty_db)) + 1);
          "avg_attempts_per_lock" :=
            VQuot (Z.of_nat (length (attempts_of (lit "u1") empty_db)))
                  (Z.of_nat (length (locks_of (lit "u1") empty_db)) + 1) ]}.
Proof.
  refine (proj1 (insights_after_simulate_lock noon 5 7 (lit "u1") None steps 30
                   empty_db empty_db_wf _ _)).
  - unfold datetime_valid, DATETIME_MAX, US_PER_DAY, noon. lia.
  - unfold datetime_valid, DATETIME_MAX, US_PER_DAY, US_PER_MINUTE, noon. lia.
Defined.
